(** * Power management of zos nodes: a shallow embedding of [pkg/node/power.go]

    The Go code talks to a ledger (substrate), to the kernel routing table,
    to the init system and to peers over HTTP.  Every such external call is
    a constructor of [call]; a Go function becomes a [prog], a finite tree
    of calls whose continuation receives the answer.  A world answers the
    calls, [run] threads the world through a program and records the calls
    together with their answers, in program order.

    [pkg/node/events.go] holds an earlier draft of the same functions; the
    definitions below follow [power.go]. *)

From Stdlib Require Import ZArith List String Bool Lia.
Import ListNotations.
Local Open Scope string_scope.
Local Open Scope Z_scope.

(** ** Machine integers *)

Definition uint32 := Z.
Definition uint64 := Z.

Definition max_uint32 : Z := 2 ^ 32 - 1.
Definition max_uint64 : Z := 2 ^ 64 - 1.

(** Conversion to [uint64] and arithmetic on [uint64] wrap around. *)
Definition to_uint64 (z : Z) : uint64 := z mod 2 ^ 64.
Definition add64 (a b : uint64) : uint64 := to_uint64 (a + b).
Definition mul64 (a b : uint64) : uint64 := to_uint64 (a * b).

Definition is_uint32 (z : Z) : Prop := 0 <= z <= max_uint32.
Definition is_uint64 (z : Z) : Prop := 0 <= z <= max_uint64.

(** ** Errors *)

(** Go's [error] values.  [Errorf] is [fmt.Errorf], [Wrap] is
    [errors.Wrap] of github.com/pkg/errors on a non-nil cause, [External] is
    an error produced outside this package.  The two sentinels are
    [zinit.ErrNotSupported] and this package's [errConnectionError]. *)
Inductive error : Type :=
| Errorf (msg : string)
| External (what : string)
| ErrNotSupported
| errConnectionError
| Wrap (cause : error) (msg : string).

(** A nil-able [error]. *)
Definition err := option error.

(** [errors.Wrap(err, msg)]: nil when [err] is nil. *)
Definition errors_Wrap (e : err) (msg : string) : err :=
  match e with
  | None => None
  | Some c => Some (Wrap c msg)
  end.

Definition is_ErrNotSupported (e : error) : bool :=
  match e with
  | ErrNotSupported => true
  | _ => false
  end.

(** [errors.Is(err, zinit.ErrNotSupported)]: follows the chain of causes. *)
Fixpoint unwraps_to_ErrNotSupported (e : error) : bool :=
  match e with
  | Wrap c _ => unwraps_to_ErrNotSupported c
  | other => is_ErrNotSupported other
  end.

Definition errors_Is_ErrNotSupported (e : err) : bool :=
  match e with
  | None => false
  | Some c => unwraps_to_ErrNotSupported c
  end.

(** The pair (value, error) of a fallible Go call. *)
Inductive result (A : Type) : Type :=
| Ok (a : A)
| Err (e : error).
Arguments Ok {A} a.
Arguments Err {A} e.

(** ** Data read from and written to the ledger *)

(** [node.Power().Target] and the [Target] of a power event. *)
Record PowerTarget : Type := mkTarget {
  target_IsUp : bool;
  target_IsDown : bool
}.

(** [substrate.PowerState]: read as [node.Power().State], written by
    [SetNodePowerState]. *)
Record PowerState : Type := mkState {
  state_IsUp : bool;
  state_IsDown : bool;
  state_Leader : uint32
}.

Record NodePower : Type := mkPower {
  Target : PowerTarget;
  State : PowerState;
  LastUpTime : uint64
}.

Record Interface : Type := mkInterface {
  Name : string;
  Mac : string;
  IPs : list string
}.

Record Node : Type := mkNode {
  ID : uint32;
  FarmID : uint32;
  Interfaces : list Interface;
  Power : NodePower
}.

(** [pkg.PowerChangeEvent]. *)
Record PowerChangeEvent : Type := mkEvent {
  event_FarmID : uint32;
  event_NodeID : uint32;
  event_Target : PowerTarget
}.

(** The wire value [powerRequest]. *)
Record powerRequestBody : Type := mkRequest {
  req_Leader : uint32;
  req_Node : uint32;
  req_Target : string
}.

Definition downTarget : string := "down".
Definition wolInterface : string := "zos".
Definition PowerServerPort : Z := 8039.

(** ** The network side *)

(** A parsed [net.IP]: its bytes. *)
Definition IP := list Z.

(** The fields of a [netlink.Route] that [IsDirect] reads. *)
Record Route : Type := mkRoute {
  Gw : option IP;
  LinkIndex : Z
}.

Record Direct : Type := mkDirect { idx : Z }.

(** An outgoing [http.Request], as far as this package builds it. *)
Record HttpRequest : Type := mkHttpRequest {
  http_method : string;
  http_url : string;
  http_body : string;
  http_signed_by : option uint32
}.

(** The incoming request of a handler: its raw body and the twin id the
    authentication middleware stored in the request context
    ([mw.TwinID(r.Context())]). *)
Record Request : Type := mkIncoming {
  Body : string;
  TwinID : uint32
}.

(** [mw.Response] as returned by the handlers. *)
Inductive Response : Type :=
| Accepted
| BadRequest (e : error)
| UnAuthorized (e : error)
| Forbidden (e : error)
| Error (e : error).

Inductive level : Type := Debug | Info | LogError.

(** The two ways out of [select { <-ctx.Done() ; <-time.After(d) }]. *)
Inductive wakeup : Type := CtxDone | TimerFired.

(** ** External calls *)

Inductive call : Type :=
| Log (lvl : level) (msg : string)
| Substrate                                  (* p.sub.Substrate() *)
| SubClose                                   (* client.Close() *)
| GetNode (id : uint32)
| SetNodePowerState (st : PowerState)
| Now                                        (* time.Now().Unix() *)
| EtherWake (mac : string)                   (* ether-wake -i zos mac *)
| ParseIP (ip : string)                      (* net.ParseIP *)
| RouteGet (ip : IP)                         (* netlink.RouteGet *)
| JsonEncode (r : powerRequestBody)
| BuildUrl (ip : string) (port : Z) (path : string)
| NewRequest (method url body : string)      (* http.NewRequest *)
| SignedRequest (twin : uint32) (r : HttpRequest)
| HttpDo (r : HttpRequest)
| BodyClose
| SendNow                                    (* p.ut.SendNow() *)
| InitShutdown
| InitReboot
| IsLeader                                   (* p.elections.IsLeader() *)
| JsonDecode (body : string)
| MarkDone                                   (* p.ut.Mark.Done(ctx) *)
| Subscribe                                  (* events.PowerChangeEvent(ctx) *)
| Select (seconds : Z).

(** What each call answers.  The connection handle of [Substrate] and the
    response of [HttpDo] carry nothing the code reads.  [Subscribe] answers,
    when the subscription is established, with the events the channel
    delivers until it is closed. *)
Definition resp (c : call) : Type :=
  match c with
  | Log _ _ => unit
  | Substrate => result unit
  | SubClose => unit
  | GetNode _ => result Node
  | SetNodePowerState _ => result unit
  | Now => Z
  | EtherWake _ => err
  | ParseIP _ => option IP
  | RouteGet _ => result (list Route)
  | JsonEncode _ => result string
  | BuildUrl _ _ _ => result string
  | NewRequest _ _ _ => result HttpRequest
  | SignedRequest _ _ => result HttpRequest
  | HttpDo _ => result unit
  | BodyClose => unit
  | SendNow => result unit
  | InitShutdown => err
  | InitReboot => err
  | IsLeader => bool
  | JsonDecode _ => result powerRequestBody
  | MarkDone => unit
  | Subscribe => result (list PowerChangeEvent)
  | Select _ => wakeup
  end.

(** ** Programs *)

Inductive prog (A : Type) : Type :=
| Ret (a : A)
| Do (c : call) (k : resp c -> prog A).
Arguments Ret {A} a.
Arguments Do {A} c k.

Fixpoint bind {A B : Type} (p : prog A) (f : A -> prog B) : prog B :=
  match p with
  | Ret a => f a
  | Do c k => Do c (fun x => bind (k x) f)
  end.

Definition perform (c : call) : prog (resp c) := Do c (fun x => Ret x).

Declare Scope prog_scope.
Delimit Scope prog_scope with prog.
Notation "x <- p ;; q" := (bind p (fun x => q))
  (at level 61, p at next level, right associativity) : prog_scope.
Notation "p ;; q" := (bind p (fun _ => q))
  (at level 61, right associativity) : prog_scope.
Local Open Scope prog_scope.

(** A call with its answer. *)
Record entry : Type := Did { entry_call : call; entry_resp : resp entry_call }.

(** The result of running a program: what it returned, what it did, and
    the world it left. *)
Record outcome (W A : Type) : Type := mkOutcome {
  value : A;
  trace : list entry;
  final : W
}.
Arguments mkOutcome {W A} value trace final.
Arguments value {W A} o.
Arguments trace {W A} o.
Arguments final {W A} o.

Definition world (W : Type) : Type := forall c : call, W -> resp c * W.

Fixpoint run {W A : Type} (h : world W) (p : prog A) (w : W) : outcome W A :=
  match p with
  | Ret a => mkOutcome a [] w
  | Do c k =>
      let (x, w1) := h c w in
      let o := run h (k x) w1 in
      mkOutcome (value o) (Did c x :: trace o) (final o)
  end.

(** [after t o]: the outcome [o] preceded by the entries [t]. *)
Definition after {W A : Type} (t : list entry) (o : outcome W A) : outcome W A :=
  mkOutcome (value o) (t ++ trace o) (final o).

(** ** The power server *)

(** The fields of [PowerServer] that the code below reads; the keys, the
    clients and the uptime reporter stand behind the calls. *)
Record PowerServer : Type := mkServer {
  farm : uint32;
  node : uint32;
  direct : Direct
}.

Definition log (lvl : level) (msg : string) : prog unit := perform (Log lvl msg).

Definition getNode (p : PowerServer) (nodeID : uint32) : prog (result Node) :=
  c <- perform Substrate ;;
  match c with
  | Err e => Ret (Err (Wrap e "failed to get connection to substrate"))
  | Ok _ =>
      n <- perform (GetNode nodeID) ;;
      perform SubClose ;;
      match n with
      | Err e => Ret (Err (Wrap e "failed to get node information"))
      | Ok nd => Ret (Ok nd)
      end
  end.

(** [next := ts + (24+uint64(id)%24)*1200], in [uint64]. *)
Definition next (id : uint32) (ts : uint64) : uint64 :=
  add64 ts (mul64 (add64 24 (to_uint64 id mod 24)) 1200).

Definition needNudge (p : PowerServer) (id : uint32) (ts : uint64) : prog bool :=
  t <- perform Now ;;
  let now := to_uint64 t in
  Ret (next id ts <=? now).

(** The loops of [powerUp] and [powerDown] over [node.Interfaces]: the
    first interface named "zos" decides. *)
Fixpoint zos_mac (infs : list Interface) : string :=
  match infs with
  | [] => ""
  | inf :: rest => if String.eqb (Name inf) "zos" then Mac inf else zos_mac rest
  end.

Fixpoint zos_ips (infs : list Interface) : list string :=
  match infs with
  | [] => []
  | inf :: rest => if String.eqb (Name inf) "zos" then IPs inf else zos_ips rest
  end.

Definition powerUp (p : PowerServer) (nd : Node) : prog err :=
  log Info "powering on node" ;;
  let mac := zos_mac (Interfaces nd) in
  if String.eqb mac "" then Ret (Some (Errorf "can't find mac address of node"))
  else perform (EtherWake mac).

(** The loop of [IsDirect] over the routes. *)
Fixpoint direct_route (d : Direct) (routes : list Route) : bool :=
  match routes with
  | [] => false
  | r :: rest =>
      match Gw r with
      | None => if LinkIndex r =? idx d then true else direct_route d rest
      | Some _ => direct_route d rest
      end
  end.

Definition IsDirect (d : Direct) (ip : string) : prog (bool * err) :=
  ipT <- perform (ParseIP ip) ;;
  match ipT with
  | None => Ret (false, Some (Errorf "invalid ip address"))
  | Some a =>
      routes <- perform (RouteGet a) ;;
      match routes with
      | Err _ => Ret (false, None)
      | Ok rs => Ret (direct_route d rs, None)
      end
  end.

Definition powerRequest (p : PowerServer) (ip : string) (req : powerRequestBody)
  : prog err :=
  buf <- perform (JsonEncode req) ;;
  match buf with
  | Err e => Ret (Some e)
  | Ok body =>
      url <- perform (BuildUrl ip PowerServerPort "power") ;;
      match url with
      | Err e => Ret (Some e)
      | Ok u =>
          r <- perform (NewRequest "POST" u body) ;;
          match r with
          | Err e => Ret (Some e)
          | Ok r0 =>
              s <- perform (SignedRequest (node p) r0) ;;
              match s with
              | Err e => Ret (Some e)
              | Ok r1 =>
                  answer <- perform (HttpDo r1) ;;
                  match answer with
                  | Ok _ => perform BodyClose
                  | Err _ => Ret tt
                  end ;;
                  Ret None
              end
          end
      end
  end.

Fixpoint powerDown_ips (p : PowerServer) (req : powerRequestBody)
  (ips : list string) : prog unit :=
  match ips with
  | [] => Ret tt
  | ip :: rest =>
      probe <- IsDirect (direct p) ip ;;
      match probe with
      | (_, Some _) =>
          log LogError "failed to send power down request" ;;
          powerDown_ips p req rest
      | (false, None) => powerDown_ips p req rest
      | (true, None) =>
          e <- powerRequest p ip req ;;
          match e with
          | Some _ => log LogError "failed to send power down request"
          | None => Ret tt
          end ;;
          powerDown_ips p req rest
      end
  end.

Definition powerDown (p : PowerServer) (nd : Node) : prog err :=
  log Debug "powering off node" ;;
  let ips := zos_ips (Interfaces nd) in
  let req := mkRequest (node p) (ID nd) downTarget in
  powerDown_ips p req ips ;;
  Ret None.

Definition shutdown (p : PowerServer) : prog err :=
  log Info "shutting down node because of chain" ;;
  sent <- perform SendNow ;;
  match sent with
  | Err _ => log LogError "failed to send uptime before shutting down"
  | Ok _ => Ret tt
  end ;;
  e <- perform InitShutdown ;;
  if errors_Is_ErrNotSupported e then
    log Info "node does not support shutdown. rebooting to update" ;;
    perform InitReboot
  else Ret e.

Definition syncNode (p : PowerServer) (id : uint32) : prog err :=
  r <- perform (GetNode id) ;;
  match r with
  | Err e => Ret (Some (Wrap e "failed to get node from chain"))
  | Ok nd =>
      if target_IsUp (Target (Power nd)) || state_IsDown (State (Power nd)) then
        nudge <- needNudge p id (to_uint64 (LastUpTime (Power nd))) ;;
        if nudge then powerUp p nd else Ret None
      else powerDown p nd
  end.

Definition syncSelf (p : PowerServer) : prog err :=
  r <- getNode p (node p) ;;
  match r with
  | Err e => Ret (Some e)
  | Ok nd =>
      let power := Power nd in
      if target_IsUp (Target power) then
        c <- perform Substrate ;;
        match c with
        | Err e => Ret (Some e)
        | Ok _ =>
            s <- perform (SetNodePowerState (mkState true false 0)) ;;
            match s with
            | Err e => Ret (errors_Wrap (Some e) "failed to set state to up")
            | Ok _ => Ret (errors_Wrap None "failed to set state to up")
            end
        end
      else if state_IsDown (State power) then shutdown p
      else Ret None
  end.

Definition event (p : PowerServer) (ev : PowerChangeEvent) : prog err :=
  if negb (event_FarmID ev =? farm p) then Ret None
  else
    log Debug "received power event for farm" ;;
    r <- getNode p (event_NodeID ev) ;;
    match r with
    | Err e => Ret (Some e)
    | Ok nd =>
        if event_NodeID ev =? node p then Ret None
        else if target_IsDown (event_Target ev) then
          log Info "received an event to power down" ;;
          powerDown p nd
        else if target_IsUp (event_Target ev) then
          log Info "received an event to power up" ;;
          powerUp p nd
        else Ret None
    end.

(** [for event := range stream]. *)
Fixpoint recv_stream (p : PowerServer) (stream : list PowerChangeEvent) : prog unit :=
  match stream with
  | [] => Ret tt
  | ev :: rest =>
      e <- event p ev ;;
      match e with
      | Some _ => log LogError "failed to process power event"
      | None => Ret tt
      end ;;
      recv_stream p rest
  end.

Definition recv (p : PowerServer) : prog err :=
  log Info "listening for power events" ;;
  s <- perform Subscribe ;;
  match s with
  | Err _ => Ret (Some (Wrap errConnectionError "failed to connect to zbus events"))
  | Ok stream => recv_stream p stream ;; Ret None
  end.

(** The [for] loop of [events].  It has no bound in the source; [fuel]
    counts the iterations allowed, [None] means the fuel ran out before the
    loop returned. *)
Fixpoint events_loop (p : PowerServer) (fuel : nat) : prog (option unit) :=
  match fuel with
  | O => Ret None
  | S n =>
      e <- recv p ;;
      match e with
      | None => Ret (Some tt)
      | Some _ =>
          w <- perform (Select 10) ;;
          match w with
          | CtxDone => Ret (Some tt)
          | TimerFired => events_loop p n
          end
      end
  end.

Definition events (p : PowerServer) (fuel : nat) : prog (option unit) :=
  perform MarkDone ;;
  e <- syncSelf p ;;
  match e with
  | Some _ => log LogError "failed to synchronize power status with grid"
  | None => Ret tt
  end ;;
  events_loop p fuel.

(** [defer sub.Close()] around the rest of a handler. *)
Definition closing {A : Type} (body : prog A) : prog A :=
  a <- body ;;
  perform SubClose ;;
  Ret a.

Definition power (p : PowerServer) (r : Request) : prog Response :=
  leading <- perform IsLeader ;;
  if leading then Ret (Forbidden (Errorf "is a leader node"))
  else
    d <- perform (JsonDecode (Body r)) ;;
    match d with
    | Err e => Ret (BadRequest e)
    | Ok request =>
        let leader := TwinID r in
        if negb (leader =? req_Leader request) then
          Ret (UnAuthorized (Errorf "invalid leader id in request"))
        else if negb (String.eqb (req_Target request) downTarget) then
          Ret (BadRequest (Errorf (String.append "unknown power target " (req_Target request))))
        else
          c <- perform Substrate ;;
          match c with
          | Err e => Ret (Error e)
          | Ok _ =>
              closing (
                ln <- perform (GetNode leader) ;;
                match ln with
                | Err e => Ret (Error (Wrap e "failed to get leader node"))
                | Ok leaderNode =>
                    if negb (FarmID leaderNode =? farm p) then
                      Ret (UnAuthorized (Errorf "requesting node is not in the same farm"))
                    else
                      s <- perform (SetNodePowerState
                                      (mkState false true (req_Leader request))) ;;
                      match s with
                      | Err e => Ret (Error (Wrap e "failed to set power state"))
                      | Ok _ =>
                          e <- shutdown p ;;
                          match e with
                          | Some e0 => Ret (Error e0)
                          | None => Ret Accepted
                          end
                      end
                end)
          end
    end.

(** ** Reading traces *)

(** The calls of a trace, without their answers. *)
Definition calls (t : list entry) : list call := map entry_call t.

(** The error, if any, with which a step of building the outgoing request
    failed: serialisation, URL, request creation or signing. *)
Definition construction_failure (e : entry) : err :=
  match e with
  | Did c x =>
      match c as c0 return resp c0 -> err with
      | JsonEncode _ => fun r => match r with Err e0 => Some e0 | Ok _ => None end
      | BuildUrl _ _ _ => fun r => match r with Err e0 => Some e0 | Ok _ => None end
      | NewRequest _ _ _ => fun r => match r with Err e0 => Some e0 | Ok _ => None end
      | SignedRequest _ _ => fun r => match r with Err e0 => Some e0 | Ok _ => None end
      | _ => fun _ => None
      end x
  end.

Fixpoint construction_error (t : list entry) : err :=
  match t with
  | [] => None
  | e :: rest =>
      match construction_failure e with
      | Some x => Some x
      | None => construction_error rest
      end
  end.

(** The requests handed to the HTTP client, each with what came back. *)
Definition http_exchange (e : entry) : option (HttpRequest * result unit) :=
  match e with
  | Did c x =>
      match c as c0 return resp c0 -> option (HttpRequest * result unit) with
      | HttpDo r => fun a => Some (r, a)
      | _ => fun _ => None
      end x
  end.

Fixpoint http_exchanges (t : list entry) : list (HttpRequest * result unit) :=
  match t with
  | [] => []
  | e :: rest =>
      match http_exchange e with
      | Some x => x :: http_exchanges rest
      | None => http_exchanges rest
      end
  end.

(** The power states written to the ledger, in order. *)
Fixpoint ledger_writes (cs : list call) : list PowerState :=
  match cs with
  | [] => []
  | SetNodePowerState st :: rest => st :: ledger_writes rest
  | _ :: rest => ledger_writes rest
  end.

(** The MAC addresses woken and the requests posted to peers, in order. *)
Fixpoint wakes (cs : list call) : list string :=
  match cs with
  | [] => []
  | EtherWake mac :: rest => mac :: wakes rest
  | _ :: rest => wakes rest
  end.

Fixpoint posts (cs : list call) : list HttpRequest :=
  match cs with
  | [] => []
  | HttpDo r :: rest => r :: posts rest
  | _ :: rest => posts rest
  end.

(** The calls of a local shutdown, in order. *)
Fixpoint shutdown_calls (cs : list call) : list call :=
  match cs with
  | [] => []
  | SendNow :: rest => SendNow :: shutdown_calls rest
  | InitShutdown :: rest => InitShutdown :: shutdown_calls rest
  | InitReboot :: rest => InitReboot :: shutdown_calls rest
  | _ :: rest => shutdown_calls rest
  end.

(** The calls by which the event loop goes round: subscribing, and
    waiting for the reconnect timer. *)
Definition loop_call (c : call) : bool :=
  match c with
  | Subscribe => true
  | Select _ => true
  | _ => false
  end.

(** [avoids f p]: however the calls are answered, [p] makes no call that
    [f] picks. *)
Fixpoint avoids {A : Type} (f : call -> bool) (p : prog A) : Prop :=
  match p with
  | Ret _ => True
  | Do c k => f c = false /\ forall x, avoids f (k x)
  end.

(** The first log lines of [event] and of [recv]. *)
Definition received : string := "received power event for farm".

Definition listening : string := "listening for power events".

(** The handler up to the ledger write, for a request that passes every
    check: this node is not the leader, the body decodes, the caller is the
    leader named in the body, the target is down, the ledger is reachable and
    holds the leader in this node's farm. *)
Definition validated {W : Type} (h : world W) (w : W) (p : PowerServer)
  (r : Request) (request : powerRequestBody) (w4 : W) : Prop :=
  exists w1 w2 w3 leaderNode,
    h IsLeader w = (false, w1)
    /\ h (JsonDecode (Body r)) w1 = (Ok request, w2)
    /\ TwinID r = req_Leader request
    /\ req_Target request = downTarget
    /\ h Substrate w2 = (Ok tt, w3)
    /\ h (GetNode (TwinID r)) w3 = (Ok leaderNode, w4)
    /\ FarmID leaderNode = farm p.

(** The calls of the handler that passes every check, before the write. *)
Definition checks (r : Request) : list call :=
  [IsLeader; JsonDecode (Body r); Substrate; GetNode (TwinID r)].

(** ** Worlds to run the programs in *)

(** A world without memory in which every call succeeds: the ledger knows
    no node, the clock shows 0, nothing parses as an address, the
    subscription is established and its stream ends at once. *)
Definition calm : world unit := fun c w =>
  (match c as c0 return resp c0 with
   | Log _ _ => tt
   | Substrate => Ok tt
   | SubClose => tt
   | GetNode _ => Err (External "no such node")
   | SetNodePowerState _ => Ok tt
   | Now => 0
   | EtherWake _ => None
   | ParseIP _ => None
   | RouteGet _ => Ok []
   | JsonEncode _ => Ok "{}"
   | BuildUrl ip _ path => Ok (String.append "http://" (String.append ip (String.append "/" path)))
   | NewRequest m u b => Ok (mkHttpRequest m u b None)
   | SignedRequest twin r =>
       Ok (mkHttpRequest (http_method r) (http_url r) (http_body r) (Some twin))
   | HttpDo _ => Ok tt
   | BodyClose => tt
   | SendNow => Ok tt
   | InitShutdown => None
   | InitReboot => None
   | IsLeader => false
   | JsonDecode _ => Err (External "unexpected end of JSON input")
   | MarkDone => tt
   | Subscribe => Ok []
   | Select _ => TimerFired
   end, w).

(** [calm] with a clock that shows [t]. *)
Definition at_time (t : Z) : world unit := fun c w =>
  match c as c0 return resp c0 * unit with
  | Now => (t, w)
  | other => calm other w
  end.

(** [calm] with a ledger that holds the record [nd] under every id. *)
Definition with_node (nd : Node) (base : world unit) : world unit := fun c w =>
  match c as c0 return resp c0 * unit with
  | GetNode _ => (Ok nd, w)
  | other => base other w
  end.

(** A base world whose ledger connection is down. *)
Definition disconnected (base : world unit) : world unit := fun c w =>
  match c as c0 return resp c0 * unit with
  | Substrate => (Err (External "connection refused"), w)
  | other => base other w
  end.

(** A base world in which this node holds the leadership. *)
Definition leading (base : world unit) : world unit := fun c w =>
  match c as c0 return resp c0 * unit with
  | IsLeader => (true, w)
  | other => base other w
  end.

(** A base world in which every request body decodes to [req]. *)
Definition with_body (req : powerRequestBody) (base : world unit) : world unit :=
  fun c w =>
    match c as c0 return resp c0 * unit with
    | JsonDecode _ => (Ok req, w)
    | other => base other w
    end.

(** A base world whose init system answers [Shutdown] with [e]. *)
Definition with_init (e : err) (base : world unit) : world unit := fun c w =>
  match c as c0 return resp c0 * unit with
  | InitShutdown => (e, w)
  | other => base other w
  end.

(** A base world whose ledger refuses every power-state transaction. *)
Definition read_only (base : world unit) : world unit := fun c w =>
  match c as c0 return resp c0 * unit with
  | SetNodePowerState _ => (Err (External "transaction failed"), w)
  | other => base other w
  end.

(** A base world whose event stream delivers [evs] and then ends. *)
Definition with_stream (evs : list PowerChangeEvent) (base : world unit)
  : world unit := fun c w =>
    match c as c0 return resp c0 * unit with
    | Subscribe => (Ok evs, w)
    | other => base other w
    end.

(** A base world in which every string parses to the address [a], whose
    routes are [rs]. *)
Definition with_routes (a : IP) (rs : result (list Route)) (base : world unit)
  : world unit := fun c w =>
    match c as c0 return resp c0 * unit with
    | ParseIP _ => (Some a, w)
    | RouteGet _ => (rs, w)
    | other => base other w
    end.

(** A base world in which no peer can be reached. *)
Definition unreachable (base : world unit) : world unit := fun c w =>
  match c as c0 return resp c0 * unit with
  | HttpDo _ => (Err (External "no route to host"), w)
  | other => base other w
  end.

(** A base world in which signing fails. *)
Definition unsigned (base : world unit) : world unit := fun c w =>
  match c as c0 return resp c0 * unit with
  | SignedRequest _ _ => (Err (External "bad key"), w)
  | other => base other w
  end.

(** A world with memory: the event bus refuses the first [n] subscriptions,
    then establishes a stream that ends at once; the context is cancelled
    when [cancelled] says so of the number of refusals still to come. *)
Definition flaky (cancelled : nat -> bool) : world nat := fun c n =>
  match c as c0 return resp c0 * nat with
  | Subscribe =>
      match n with
      | O => (Ok [], O)
      | S m => (Err (External "bus unavailable"), m)
      end
  | Select _ => (if cancelled n then CtxDone else TimerFired, n)
  | other => (fst (calm other tt), n)
  end.

(** Records used in the examples: node 11 itself with target and state
    both up; a neighbour with a "zos" interface. *)
Definition settled : Node :=
  mkNode 11 7 [] (mkPower (mkTarget true false) (mkState true false 0) 1700000000).

Definition neighbour (id : uint32) (target : PowerTarget) (state : PowerState)
  (last : uint64) : Node :=
  mkNode id 7
    [mkInterface "eth0" "52:54:00:00:00:01" ["192.168.1.9"];
     mkInterface "zos" "52:54:00:12:34:56" ["10.0.0.5"]]
    (mkPower target state last).

(** The leader of the examples, twin 5, once in farm 7 and once in farm 8. *)
Definition leader_record (its_farm : uint32) : Node :=
  mkNode 5 its_farm [] (mkPower (mkTarget true false) (mkState true false 0) 1700000000).

(** The request of the examples: twin 5 asks node 11 to go down. *)
Definition from_leader : Request := mkIncoming "{...}" 5.

(** The server used in the examples: node 11 of farm 7, control interface
    index 2. *)
Definition server : PowerServer := mkServer 7 11 (mkDirect 2).

(** ** More ways to read a trace *)

(** The first interface named "zos", which [powerUp] and [powerDown] look
    for. *)
Definition is_zos (inf : Interface) : bool := String.eqb (Name inf) "zos".

(** The calls of a trace picked by [f], in order. *)
Fixpoint collect {A : Type} (f : call -> option A) (cs : list call) : list A :=
  match cs with
  | [] => []
  | c :: rest =>
      match f c with
      | Some a => a :: collect f rest
      | None => collect f rest
      end
  end.

(** The addresses probed ([net.ParseIP] is the first step of [IsDirect]),
    the bodies serialised for a peer, the records fetched from the ledger. *)
Definition probes : list call -> list string :=
  collect (fun c => match c with ParseIP ip => Some ip | _ => None end).

Definition asked : list call -> list powerRequestBody :=
  collect (fun c => match c with JsonEncode r => Some r | _ => None end).

Definition fetched : list call -> list uint32 :=
  collect (fun c => match c with GetNode id => Some id | _ => None end).

(** What the init system answered to [Shutdown] and to [Reboot]. *)
Definition shutdown_answer (e : entry) : option err :=
  match e with
  | Did c x =>
      match c as c0 return resp c0 -> option err with
      | InitShutdown => fun a => Some a
      | _ => fun _ => None
      end x
  end.

Definition reboot_answer (e : entry) : option err :=
  match e with
  | Did c x =>
      match c as c0 return resp c0 -> option err with
      | InitReboot => fun a => Some a
      | _ => fun _ => None
      end x
  end.

(** The answers picked by [pick], in order. *)
Fixpoint picked {A : Type} (pick : entry -> option A) (t : list entry) : list A :=
  match t with
  | [] => []
  | e :: rest =>
      match pick e with
      | Some a => a :: picked pick rest
      | None => picked pick rest
      end
  end.

(** Ledger connections: one is opened by each [Substrate] call that
    succeeds, one is closed by each [SubClose]. *)
Definition opens (e : entry) : option unit :=
  match e with
  | Did c x =>
      match c as c0 return resp c0 -> option unit with
      | Substrate => fun a => match a with Ok _ => Some tt | Err _ => None end
      | _ => fun _ => None
      end x
  end.

Definition closes (e : entry) : option unit :=
  match entry_call e with
  | SubClose => Some tt
  | _ => None
  end.

(** The log line with which [event] starts to handle an event of its farm. *)
Definition is_received (c : call) : bool :=
  match c with
  | Log Debug msg => String.eqb msg received
  | _ => false
  end.

(** The calls that reach out to a neighbour: the probe, the request, the
    magic packet. *)
Definition neighbour_call (c : call) : bool :=
  match c with
  | EtherWake _ | ParseIP _ | RouteGet _ | JsonEncode _ | BuildUrl _ _ _
  | NewRequest _ _ _ | SignedRequest _ _ | HttpDo _ | BodyClose => true
  | _ => false
  end.

(** ** The rest of the package: construction and the periodic sync *)

(** The calls of [NewPowerServer], [enableWol], [NewDirect], [syncNodes]
    and [synchronize]: those of the power protocol ([Base]) and the ones
    only they make. *)
Inductive ecall : Type :=
| Base (c : call)
| GetNodesByFarmID (farm : uint32)           (* sub.GetNodesByFarmID *)
| BridgeGet (inf : string)                   (* bridge.Get *)
| BridgeListNics (br : string)               (* bridge.ListNics(br, true) *)
| Ethtools (nic : string)                    (* ethtools -s nic wol g *)
| NewIdentityFromEd25519Key                  (* substrate.NewIdentityFromEd25519Key(sk) *)
| LinkByName (inf : string).                 (* netlink.LinkByName *)

(** A bridge is known by its name, a NIC by the name in its attributes, a
    link by the index in its attributes. *)
Definition eresp (c : ecall) : Type :=
  match c with
  | Base c0 => resp c0
  | GetNodesByFarmID _ => result (list uint32)
  | BridgeGet _ => result string
  | BridgeListNics _ => result (list string)
  | Ethtools _ => err
  | NewIdentityFromEd25519Key => result unit
  | LinkByName _ => result Z
  end.

Inductive eprog (A : Type) : Type :=
| ERet (a : A)
| EDo (c : ecall) (k : eresp c -> eprog A).
Arguments ERet {A} a.
Arguments EDo {A} c k.

Fixpoint ebind {A B : Type} (p : eprog A) (f : A -> eprog B) : eprog B :=
  match p with
  | ERet a => f a
  | EDo c k => EDo c (fun x => ebind (k x) f)
  end.

Definition eperform (c : ecall) : eprog (eresp c) := EDo c (fun x => ERet x).

(** A program of the power protocol, as a program of the package. *)
Fixpoint lift {A : Type} (p : prog A) : eprog A :=
  match p with
  | Ret a => ERet a
  | Do c k => EDo (Base c) (fun x => lift (k x))
  end.

Notation "x <~ p ;; q" := (ebind p (fun x => q))
  (at level 61, p at next level, right associativity) : prog_scope.
Notation "p ~~ q" := (ebind p (fun _ => q))
  (at level 61, right associativity) : prog_scope.

Record eentry : Type := EDid { eentry_call : ecall; eentry_resp : eresp eentry_call }.

Record eoutcome (W A : Type) : Type := mkEOutcome {
  evalue : A;
  etrace : list eentry;
  efinal : W
}.
Arguments mkEOutcome {W A} evalue etrace efinal.
Arguments evalue {W A} e.
Arguments etrace {W A} e.
Arguments efinal {W A} e.

Definition eworld (W : Type) : Type := forall c : ecall, W -> eresp c * W.

Fixpoint erun {W A : Type} (h : eworld W) (p : eprog A) (w : W) : eoutcome W A :=
  match p with
  | ERet a => mkEOutcome a [] w
  | EDo c k =>
      let (x, w1) := h c w in
      let o := erun h (k x) w1 in
      mkEOutcome (evalue o) (EDid c x :: etrace o) (efinal o)
  end.

Definition ecalls (t : list eentry) : list ecall := map eentry_call t.

(** The part of a world of the package that answers the power protocol, and
    an entry of the power protocol as an entry of the package. *)
Definition base_world {W : Type} (h : eworld W) : world W := fun c w => h (Base c) w.

Definition lift_entry (e : entry) : eentry :=
  match e with
  | Did c x => EDid (Base c) x
  end.

(** The loop of [enableWol] over the NICs attached to the bridge. *)
Fixpoint enableWol_nics (nics : list string) : eprog unit :=
  match nics with
  | [] => ERet tt
  | nic :: rest =>
      e <~ eperform (Ethtools nic) ;;
      match e with
      | Some _ => lift (log LogError "failed to enable WOL for nic")
      | None => ERet tt
      end ~~
      enableWol_nics rest
  end.

Definition enableWol (inf : string) : eprog err :=
  br <~ eperform (BridgeGet inf) ;;
  match br with
  | Err e => ERet (Some (Wrap e "failed to get zos bridge"))
  | Ok b =>
      nics <~ eperform (BridgeListNics b) ;;
      match nics with
      | Err e => ERet (Some (Wrap e "failed to list attached nics to zos bridge"))
      | Ok ns => enableWol_nics ns ~~ ERet None
      end
  end.

Definition NewDirect (inf : string) : eprog (result Direct) :=
  ln <~ eperform (LinkByName inf) ;;
  match ln with
  | Err e => ERet (Err e)
  | Ok index => ERet (Ok (mkDirect index))
  end.

(** [NewPowerServer]; the election manager and the HTTP client it also
    builds are fields that [PowerServer] does not carry here. *)
Definition NewPowerServer (farm0 : uint32) (node0 : uint32) : eprog (result PowerServer) :=
  e <~ enableWol wolInterface ;;
  match e with
  | Some e0 => ERet (Err e0)
  | None =>
      identity <~ eperform NewIdentityFromEd25519Key ;;
      match identity with
      | Err e0 => ERet (Err (Wrap e0 "failed to initialized identity"))
      | Ok _ =>
          lan <~ NewDirect wolInterface ;;
          match lan with
          | Err e0 => ERet (Err e0)
          | Ok d => ERet (Ok (mkServer farm0 node0 d))
          end
      end
  end.

(** The loop of [syncNodes] over the ids of the farm. *)
Fixpoint syncNodes_ids (p : PowerServer) (nodeIDs : list uint32) : eprog unit :=
  match nodeIDs with
  | [] => ERet tt
  | nodeID :: rest =>
      e <~ lift (syncNode p nodeID) ;;
      match e with
      | Some _ => lift (log LogError "failed to sync node power status")
      | None => ERet tt
      end ~~
      syncNodes_ids p rest
  end.

Definition syncNodes (p : PowerServer) : eprog err :=
  sub <~ eperform (Base Substrate) ;;
  match sub with
  | Err e => ERet (Some e)
  | Ok _ =>
      nodeIDs <~ eperform (GetNodesByFarmID (farm p)) ;;
      match nodeIDs with
      | Err e => ERet (Some (Wrap e "failed to list farm nodes"))
      | Ok ids => syncNodes_ids p ids ~~ ERet None
      end
  end.

(** The [for] loop of [synchronize], with fuel for its rounds: one minute
    after a failed sync, one hour after a successful one. *)
Fixpoint synchronize (p : PowerServer) (fuel : nat) : eprog (option unit) :=
  match fuel with
  | O => ERet None
  | S n =>
      e <~ syncNodes p ;;
      match e with
      | Some _ =>
          lift (log LogError "failed to synchronize neighbors power target") ~~
          w <~ eperform (Base (Select 60)) ;;
          match w with
          | TimerFired => synchronize p n
          | CtxDone => ERet (Some tt)
          end
      | None =>
          w <~ eperform (Base (Select 3600)) ;;
          match w with
          | CtxDone => ERet (Some tt)
          | TimerFired => synchronize p n
          end
      end
  end.

(** Reading a trace of the package: the calls picked by [f], the answers
    picked by [pick]. *)
Fixpoint ecollect {A : Type} (f : ecall -> option A) (cs : list ecall) : list A :=
  match cs with
  | [] => []
  | c :: rest =>
      match f c with
      | Some a => a :: ecollect f rest
      | None => ecollect f rest
      end
  end.

Fixpoint epicked {A : Type} (pick : eentry -> option A) (t : list eentry) : list A :=
  match t with
  | [] => []
  | e :: rest =>
      match pick e with
      | Some a => a :: epicked pick rest
      | None => epicked pick rest
      end
  end.

(** The NICs handed to ethtools, the node records asked of the ledger, and
    the waits of [synchronize] (seconds, and what ended the wait). *)
Definition tuned (c : ecall) : option string :=
  match c with
  | Ethtools nic => Some nic
  | _ => None
  end.

Definition asked_node (c : ecall) : option uint32 :=
  match c with
  | Base (GetNode id) => Some id
  | _ => None
  end.

Definition closing_call (c : ecall) : option unit :=
  match c with
  | Base SubClose => Some tt
  | _ => None
  end.

Definition wait (e : eentry) : option (Z * wakeup) :=
  match e with
  | EDid c x =>
      match c as c0 return eresp c0 -> option (Z * wakeup) with
      | Base c1 =>
          match c1 as c2 return resp c2 -> option (Z * wakeup) with
          | Select s => fun a => Some (s, a)
          | _ => fun _ => None
          end
      | _ => fun _ => None
      end x
  end.

(** The error with which a step of the construction failed: the bridge, the
    list of its NICs, the identity, the link.  A failure of ethtools is not
    one of them. *)
Definition setup_failure (e : eentry) : option error :=
  match e with
  | EDid c x =>
      match c as c0 return eresp c0 -> option error with
      | BridgeGet _ => fun a => match a with Err e0 => Some e0 | Ok _ => None end
      | BridgeListNics _ => fun a => match a with Err e0 => Some e0 | Ok _ => None end
      | NewIdentityFromEd25519Key =>
          fun a => match a with Err e0 => Some e0 | Ok _ => None end
      | LinkByName _ => fun a => match a with Err e0 => Some e0 | Ok _ => None end
      | _ => fun _ => None
      end x
  end.

(** The links resolved, each with the index or the error that came back. *)
Definition link (e : eentry) : option (string * result Z) :=
  match e with
  | EDid c x =>
      match c as c0 return eresp c0 -> option (string * result Z) with
      | LinkByName inf => fun a => Some (inf, a)
      | _ => fun _ => None
      end x
  end.

(** The cause under the messages wrapped around an error. *)
Fixpoint root_cause (e : error) : error :=
  match e with
  | Wrap c _ => root_cause c
  | other => other
  end.

(** The calls [syncNode] makes only once, or never: the fetch of the record,
    the connection, its closing, a wait. *)
Definition sync_mark (c : call) : bool :=
  match c with
  | GetNode _ | Substrate | SubClose | Select _ => true
  | _ => false
  end.

(** ** The provision engine ([modules/provision/engine.go]) *)

Module Engine.

(** The fields of a reservation that the engine reads. *)
Record Reservation : Type := mkReservation {
  ID : string;
  Kind : string;                               (* reservation.Type *)
  ReplyTo : string
}.

(** The lines the engine logs; [reply] only logs so far.  [V] is what a
    provisioner returns as its result. *)
Inductive line (V : Type) : Type :=
| GotReservation (kind : string)
| FailedToApply (e : error) (to : string) (id : string)
| ReservationResult (id : string) (result : V).
Arguments GotReservation {V} kind.
Arguments FailedToApply {V} e to id.
Arguments ReservationResult {V} id result.

(** A provisioner of the table [types]: it answers a reservation with a
    result and an error, and changes the node ([S]) as it does. *)
Definition provisioner (S V : Type) : Type :=
  Reservation -> S -> (option V * err) * S.

Definition reply {V : Type} (to : string) (id : string) (result : option V) (e : err)
  : list (line (option V)) :=
  match e with
  | Some e0 => [FailedToApply e0 to id]
  | None => [ReservationResult id result]
  end.

(** [Run], over the reservations the source delivers until its channel is
    closed; [types] is the table of provisioners by reservation type. *)
Fixpoint Run {S V : Type} (types : string -> option (provisioner S V))
  (source : list Reservation) (s : S) : list (line (option V)) * S :=
  match source with
  | [] => ([], s)
  | reservation :: rest =>
      match types (Kind reservation) with
      | None =>
          let (lines, s1) := Run types rest s in
          ((GotReservation (Kind reservation)
            :: reply (ReplyTo reservation) (ID reservation) None
                 (Some (Errorf (String.append "unknown reservation type '"
                                  (String.append (Kind reservation) "'"))))
            ++ lines)%list, s1)
      | Some fn =>
          let '(result, e, s1) := fn reservation s in
          let (lines, s2) := Run types rest s1 in
          ((GotReservation (Kind reservation)
            :: reply (ReplyTo reservation) (ID reservation) result e
            ++ lines)%list, s2)
      end
  end.

(** The reservations answered, by id, failed or not. *)
Definition answered {V : Type} (l : line V) : option (string * bool) :=
  match l with
  | GotReservation _ => None
  | FailedToApply _ _ id => Some (id, false)
  | ReservationResult id _ => Some (id, true)
  end.

Fixpoint answers {V : Type} (ls : list (line V)) : list (string * bool) :=
  match ls with
  | [] => []
  | l :: rest =>
      match answered l with
      | Some a => a :: answers rest
      | None => answers rest
      end
  end.

(** Whether a reservation's type is in the table. *)
Definition known {S V : Type} (types : string -> option (provisioner S V))
  (r : Reservation) : bool :=
  match types (Kind r) with
  | Some _ => true
  | None => false
  end.

End Engine.

(** ** Responses and results of provisioning ([package provision]) *)

Module Provision.

(** [gridtypes.ResultState], as far as this file names it. *)
Inductive ResultState : Type := StateOk | StateUnChanged | StatePaused | StateError.

(** The errors that reach a result: a plain one, one wrapped in a message
    ([errors.Wrap]), and this package's [*response] with its state and its
    cause, which may be nil. *)
#[warnings="-register-all"]
Inductive error : Type :=
| Plain (msg : string)
| Wrapped (cause : error) (msg : string)
| response (s : ResultState) (e : option error).

(** [Error()]: the message of a plain error, "msg: cause" for a wrapped one,
    and for a response the text of its cause, empty without one. *)
Fixpoint Error (e : error) : string :=
  match e with
  | Plain msg => msg
  | Wrapped cause msg => String.append msg (String.append ": " (Error cause))
  | response _ None => ""
  | response _ (Some cause) => Error cause
  end.

(** The methods [state] and [Unwrap] of a response, on any error. *)
Definition state (e : error) : option ResultState :=
  match e with
  | response s _ => Some s
  | _ => None
  end.

Definition Unwrap (e : error) : option error :=
  match e with
  | Plain _ => None
  | Wrapped cause _ => Some cause
  | response _ cause => cause
  end.

Definition Ok : error := response StateOk None.
Definition UnChanged (cause : option error) : error := response StateUnChanged cause.
Definition Paused : error := response StatePaused (Some (Plain "paused")).

(** [errors.As(err, &resp)] for [resp *response]: the first response on the
    chain of causes. *)
Fixpoint As_response (e : error) : option ResultState :=
  match e with
  | Plain _ => None
  | Wrapped cause _ => As_response cause
  | response s _ => Some s
  end.

(** A call that returns or panics. *)
Inductive outcome (A : Type) : Type :=
| Returns (a : A)
| Panics (why : string).
Arguments Returns {A} a.
Arguments Panics {A} why.

(** [gridtypes.Result]; [Data] is [None] where the code leaves it as it was
    declared. *)
Record Result : Type := mkResult {
  Created : Z;
  State : option ResultState;
  Message : string;                            (* result.Error *)
  Data : option string
}.

Record stateResult : Type := mkStateResult { err : option error }.

Definition NewStateResult (e : option error) : outcome stateResult :=
  match e with
  | Some _ => Panics "state result require a non-nil error"
  | None => Returns (mkStateResult e)
  end.

(** [stateResult.Result()] at clock reading [now]; calling [Error] on a nil
    error panics. *)
Definition stateResult_Result (e : stateResult) (now : Z) : outcome Result :=
  match err e with
  | None => Panics "invalid memory address or nil pointer dereference"
  | Some failure =>
      let state :=
        match As_response failure with
        | Some s => s
        | None => StateError
        end in
      Returns (mkResult now (Some state) (Error failure) None)
  end.

(** An error under the messages wrapped around it, outermost first. *)
Fixpoint wraps (msgs : list string) (e : error) : error :=
  match msgs with
  | [] => e
  | msg :: rest => Wrapped (wraps rest e) msg
  end.

End Provision.

(** ** More records and worlds for the examples *)

(** Neighbour 9 with two addresses on its "zos" interface, target down and
    state up. *)
Definition two_addresses : Node :=
  mkNode 9 7
    [mkInterface "zos" "52:54:00:12:34:56" ["10.0.0.5"; "10.0.0.6"];
     mkInterface "zos" "52:54:00:00:00:02" ["10.0.0.7"]]
    (mkPower (mkTarget false true) (mkState true false 0) 0).

(** This node with target down and state down. *)
Definition told_down : Node :=
  mkNode 11 7 [] (mkPower (mkTarget false true) (mkState false true 5) 0).

(** A world of the package: the bridge "zos" has two NICs, ethtools fails on
    the first, the link "zos" has index 2; the farm has the nodes 3 and 9;
    the power protocol is answered by [base]. *)
Definition farm_world (base : world unit) : eworld unit := fun c w =>
  match c as c0 return eresp c0 * unit with
  | Base c1 => base c1 w
  | GetNodesByFarmID _ => (Ok [3; 9], w)
  | BridgeGet inf => (Ok inf, w)
  | BridgeListNics _ => (Ok ["eth0"; "eth1"], w)
  | Ethtools nic => (if String.eqb nic "eth0" then Some (External "exit status 1") else None, w)
  | NewIdentityFromEd25519Key => (Ok tt, w)
  | LinkByName _ => (Ok 2, w)
  end.

(** A world of the package whose ledger cannot list the farm until the
    third try, and whose context is cancelled during the wait after the
    first successful sync. *)
Definition late_listing : eworld nat := fun c n =>
  match c as c0 return eresp c0 * nat with
  | GetNodesByFarmID _ =>
      match n with
      | O => (Ok [], O)
      | S m => (Err (External "rpc timeout"), m)
      end
  | Base (Select s) => (if s =? 3600 then CtxDone else TimerFired, n)
  | Base c1 => (fst (calm c1 tt), n)
  | other => (fst (farm_world calm other tt), n)
  end.

(** ** What reaching a neighbour comes to *)

(** The URLs built for the peers: address, port and path. *)
Definition urls : list call -> list (string * Z * string) :=
  collect (fun c => match c with
                    | BuildUrl ip port path => Some (ip, port, path)
                    | _ => None
                    end).

(** The addresses of the first interface named "zos", and its MAC when it
    is not empty. *)
Definition zos_addresses (nd : Node) : list string :=
  match find is_zos (Interfaces nd) with
  | Some inf => IPs inf
  | None => []
  end.

Definition zos_address_to_wake (nd : Node) : list string :=
  match find is_zos (Interfaces nd) with
  | Some inf => if String.eqb (Mac inf) "" then [] else [Mac inf]
  | None => []
  end.

(** Three kinds of world.  On the link: every address parses and every
    route lookup returns a route without gateway through the interface of
    [d].  Off the link: no route lookup returns such a route.  A world that
    builds requests: serialising, building the URL, creating and signing a
    request never fail. *)
Definition on_link {W : Type} (h : world W) (d : Direct) : Prop :=
  (forall s w, fst (h (ParseIP s) w) <> None)
  /\ (forall a w, exists rs r, fst (h (RouteGet a) w) = Ok rs
                               /\ In r rs /\ Gw r = None /\ LinkIndex r = idx d).

Definition off_link {W : Type} (h : world W) (d : Direct) : Prop :=
  forall a w rs r, fst (h (RouteGet a) w) = Ok rs ->
                   In r rs -> Gw r = None -> LinkIndex r <> idx d.

Definition builds_requests {W : Type} (h : world W) : Prop :=
  forall c w, construction_failure (Did c (fst (h c w))) = None.

(** The calls [cs] hold a peer power-down of the node of record [nd]: every
    address of its "zos" interface is probed, in order; every body
    serialised names this node as leader, the record's id as node and "down"
    as target; nothing is posted that was not serialised; no magic packet is
    sent.  Off the link nothing is serialised or posted.  On the link one
    body is serialised for each address, and where requests can be built a
    URL is built for each address, with the port of the power server and
    the path "power", and one request is posted for each address. *)
Definition peer_power_down {W : Type} (h : world W) (p : PowerServer) (nd : Node)
  (cs : list call) : Prop :=
  let req := mkRequest (node p) (ID nd) "down" in
  probes cs = zos_addresses nd
  /\ Forall (eq req) (asked cs)
  /\ (List.length (posts cs) <= List.length (asked cs))%nat
  /\ wakes cs = []
  /\ (off_link h (direct p) -> asked cs = [] /\ posts cs = [])
  /\ (on_link h (direct p) ->
      asked cs = map (fun _ => req) (zos_addresses nd)
      /\ (builds_requests h ->
          urls cs = map (fun ip => (ip, 8039, "power")) (zos_addresses nd)
          /\ List.length (posts cs) = List.length (zos_addresses nd))).

(** The calls [cs] hold a Wake-on-LAN power-up of the node of record [nd]:
    one magic packet to the MAC of its "zos" interface, none when there is
    no such interface or MAC; no address is probed and nothing is serialised
    or posted. *)
Definition wake_on_lan (nd : Node) (cs : list call) : Prop :=
  wakes cs = zos_address_to_wake nd
  /\ probes cs = [] /\ asked cs = [] /\ posts cs = [].

(** The steps of the construction, and what two of them answered: the
    bridge found and the NICs listed. *)
Definition setup_step (c : ecall) : option ecall :=
  match c with
  | BridgeGet _ | BridgeListNics _ | NewIdentityFromEd25519Key | LinkByName _ => Some c
  | _ => None
  end.

Definition bridge_found (e : eentry) : option string :=
  match e with
  | EDid c x =>
      match c as c0 return eresp c0 -> option string with
      | BridgeGet _ => fun a => match a with Ok br => Some br | Err _ => None end
      | _ => fun _ => None
      end x
  end.

Definition nics_listed (e : eentry) : option (list string) :=
  match e with
  | EDid c x =>
      match c as c0 return eresp c0 -> option (list string) with
      | BridgeListNics _ => fun a => match a with Ok ns => Some ns | Err _ => None end
      | _ => fun _ => None
      end x
  end.

(** The steps of the construction in the order of the source, for the
    bridge handle [br]. *)
Definition setup_steps (br : string) : list ecall :=
  [BridgeGet "zos"; BridgeListNics br; NewIdentityFromEd25519Key; LinkByName "zos"].

(** The error returned when the [n]-th of these steps fails with [c]: the
    first three are wrapped in a message, the error of the link is
    returned bare. *)
Definition setup_error (n : nat) (c : error) : error :=
  match n with
  | 1%nat => Wrap c "failed to get zos bridge"
  | 2%nat => Wrap c "failed to list attached nics to zos bridge"
  | 3%nat => Wrap c "failed to initialized identity"
  | _ => c
  end.

(** Worlds of the examples: the ledger always connects and holds [nd] under
    every id, every address is on the link, requests can be built. *)
Definition local_world (nd : Node) : world unit :=
  with_routes [10; 0; 0; 5] (Ok [mkRoute None 2]) (with_node nd calm).

(** ** Running programs *)

(** Case analysis on whatever the goal inspects next: the world's answer to
    the pending call, then the answer's shape. *)
Ltac answer :=
  match goal with
  | |- context [match ?h ?c ?w with pair _ _ => _ end] =>
      let x := fresh "x" in
      let w1 := fresh "w" in
      let E := fresh "E" in
      destruct (h c w) as [x w1] eqn:E; cbn in x
  end.

Ltac symbolic :=
  repeat (cbn [run bind perform log closing value trace final]; try answer;
          repeat match goal with
                 | |- context [match ?x with _ => _ end] => is_var x; destruct x
                 | |- context [if ?b then _ else _] =>
                     let E := fresh "E" in destruct b eqn:E
                 end).

Section Running.
Context {W : Type} (h : world W).

Lemma run_bind {A B : Type} (p : prog A) (f : A -> prog B) (w : W) :
  run h (bind p f) w =
  after (trace (run h p w)) (run h (f (value (run h p w))) (final (run h p w))).
Proof.
  revert w; induction p as [a | c k IH]; intro w; cbn [bind run].
  - unfold after; cbn. now destruct (run h (f a) w).
  - destruct (h c w) as [x w1]. rewrite IH. unfold after; cbn.
    now rewrite app_comm_cons.
Qed.

Lemma run_perform {A : Type} (c : call) (f : resp c -> prog A) (w : W) :
  run h (bind (perform c) f) w =
  after [Did c (fst (h c w))] (run h (f (fst (h c w))) (snd (h c w))).
Proof.
  cbn [bind perform run]. destruct (h c w) as [x w1]; reflexivity.
Qed.

Lemma run_log {A : Type} (lvl : level) (msg : string) (f : unit -> prog A) (w : W) :
  run h (bind (log lvl msg) f) w =
  after [Did (Log lvl msg) tt] (run h (f tt) (snd (h (Log lvl msg) w))).
Proof.
  unfold log. cbn [bind perform run].
  destruct (h (Log lvl msg) w) as [[] w1]; reflexivity.
Qed.

Lemma value_after {A : Type} (t : list entry) (o : outcome W A) :
  value (after t o) = value o.
Proof. reflexivity. Qed.

Lemma trace_after {A : Type} (t : list entry) (o : outcome W A) :
  trace (after t o) = (t ++ trace o)%list.
Proof. reflexivity. Qed.
End Running.

(** ** The nudge policy *)

Lemma to_uint64_small (z : Z) : is_uint64 z -> to_uint64 z = z.
Proof.
  unfold is_uint64, max_uint64, to_uint64; intro H.
  apply Z.mod_small; lia.
Qed.

(** Without overflow, [next] is the sum it is written as. *)
Lemma next_exact (id : uint32) (ts : uint64) :
  is_uint32 id -> is_uint64 ts ->
  ts + (24 + id mod 24) * 1200 <= max_uint64 ->
  next id ts = ts + (24 + id mod 24) * 1200.
Proof.
  unfold is_uint32, is_uint64, max_uint32, max_uint64; intros Hid Hts Hsum.
  assert (Hm : 0 <= id mod 24 < 24) by (apply Z.mod_pos_bound; lia).
  unfold next, add64, mul64.
  rewrite (to_uint64_small id) by (unfold is_uint64, max_uint64; lia).
  rewrite (to_uint64_small (24 + id mod 24)) by (unfold is_uint64, max_uint64; lia).
  rewrite (to_uint64_small ((24 + id mod 24) * 1200))
    by (unfold is_uint64, max_uint64; lia).
  apply to_uint64_small; unfold is_uint64, max_uint64; lia.
Qed.

Lemma needNudge_value {W : Type} (h : world W) (w : W) (p : PowerServer)
  (id : uint32) (ts : uint64) :
  value (run h (needNudge p id ts) w) = (next id ts <=? to_uint64 (fst (h Now w))).
Proof.
  unfold needNudge. rewrite run_perform. reflexivity.
Qed.

(** C5, as the claim states it, fails where the sum passes 2^64: the
    deadline of node 0 last seen at 2^64-1 wraps to second 28799, so at
    second 28799 the node is nudged although the sum
    LastUpTime + (24 + 0 mod 24) * 1200 lies far ahead. *)
Lemma needNudge_wraps_around :
  value (run (at_time 28799) (needNudge server 0 max_uint64) tt) = true
  /\ ~ (max_uint64 + (24 + 0 mod 24) * 1200 <= to_uint64 28799).
Proof.
  split; [ vm_compute; reflexivity | ].
  intro H; vm_compute in H; apply H; reflexivity.
Qed.

(** C5, amended: for a node id, a last-uptime timestamp and a clock reading
    such that LastUpTime + (24 + id mod 24) * 1200 fits 64 bits, [needNudge]
    returns true exactly when the current time, as a uint64, is at or past
    that sum. *)
Theorem needNudge_deadline {W : Type} (h : world W) (w : W) (p : PowerServer)
  (id : uint32) (ts : uint64) :
  is_uint32 id -> is_uint64 ts ->
  ts + (24 + id mod 24) * 1200 <= max_uint64 ->
  value (run h (needNudge p id ts) w) = true <->
  ts + (24 + id mod 24) * 1200 <= to_uint64 (fst (h Now w)).
Proof.
  intros Hid Hts Hsum.
  rewrite needNudge_value.
  rewrite (next_exact id ts Hid Hts Hsum).
  apply Z.leb_le.
Qed.

Lemma needNudge_deadline_witness :
  (value (run (at_time 108000) (needNudge server 3 0) tt) = true <->
   0 + (24 + 3 mod 24) * 1200 <= to_uint64 (fst (at_time 108000 Now tt))).
Proof.
  apply (needNudge_deadline (at_time 108000) tt server 3 0);
    unfold is_uint32, is_uint64, max_uint32, max_uint64; cbn; lia.
Defined.

(** ** The direct-link probe *)

(** The loop of [IsDirect] finds a route exactly when one exists. *)
Lemma direct_route_true (d : Direct) (routes : list Route) :
  direct_route d routes = true <->
  exists r, In r routes /\ Gw r = None /\ LinkIndex r = idx d.
Proof.
  induction routes as [| r rest IH]; cbn [direct_route].
  - split; [ discriminate | intros [r [[] _]] ].
  - destruct (Gw r) as [gw |] eqn:Hgw.
    + rewrite IH. split.
      * intros [r' [Hin Hr']]. exists r'. split; [ now right | exact Hr' ].
      * intros [r' [[Heq | Hin] [Hg Hl]]].
        -- subst r'. congruence.
        -- exists r'. auto.
    + destruct (LinkIndex r =? idx d) eqn:Hidx.
      * apply Z.eqb_eq in Hidx. split; [ intros _ | reflexivity ].
        exists r. split; [ now left | auto ].
      * apply Z.eqb_neq in Hidx. rewrite IH. split.
        -- intros [r' [Hin Hr']]. exists r'. split; [ now right | exact Hr' ].
        -- intros [r' [[Heq | Hin] [Hg Hl]]].
           ++ subst r'. contradiction.
           ++ exists r'. auto.
Qed.

(** What [IsDirect] returns, by the answers it got. *)
Lemma IsDirect_value {W : Type} (h : world W) (w : W) (d : Direct) (ip : string) :
  value (run h (IsDirect d ip) w) =
  match fst (h (ParseIP ip) w) with
  | None => (false, Some (Errorf "invalid ip address"))
  | Some a =>
      match fst (h (RouteGet a) (snd (h (ParseIP ip) w))) with
      | Err _ => (false, None)
      | Ok rs => (direct_route d rs, None)
      end
  end.
Proof.
  unfold IsDirect. rewrite run_perform, value_after.
  destruct (fst (h (ParseIP ip) w)) as [a |]; [ | reflexivity ].
  rewrite run_perform, value_after.
  now destruct (fst (h (RouteGet a) (snd (h (ParseIP ip) w)))).
Qed.

(** C8: [IsDirect] returns an error exactly when the string does not parse
    as an IP address; when the route lookup of a parsed address fails it
    returns (false, nil); and it returns (true, nil) exactly when the string
    parses, the lookup succeeds and one of the returned routes has no gateway
    and leaves through the interface index fixed at construction. *)
Theorem IsDirect_spec {W : Type} (h : world W) (w : W) (d : Direct) (ip : string) :
  let o := run h (IsDirect d ip) w in
  let parsed := h (ParseIP ip) w in
  (snd (value o) <> None <-> fst parsed = None)
  /\ (forall a e, fst parsed = Some a ->
        fst (h (RouteGet a) (snd parsed)) = Err e -> value o = (false, None))
  /\ (value o = (true, None) <->
      exists a rs, fst parsed = Some a
        /\ fst (h (RouteGet a) (snd parsed)) = Ok rs
        /\ exists r, In r rs /\ Gw r = None /\ LinkIndex r = idx d).
Proof.
  cbv zeta. rewrite IsDirect_value.
  destruct (fst (h (ParseIP ip) w)) as [a |] eqn:Hparse.
  - destruct (fst (h (RouteGet a) (snd (h (ParseIP ip) w)))) as [rs | e] eqn:Hroute.
    + repeat split.
      * intro H; now elim H.
      * discriminate.
      * intros a' e Ha He. injection Ha as <-. congruence.
      * intro Hv. exists a, rs. repeat split; try assumption.
        apply direct_route_true. now injection Hv.
      * intros [a' [rs' [Ha [Hrs Hex]]]]. injection Ha as <-.
        rewrite Hroute in Hrs. injection Hrs as <-.
        apply direct_route_true in Hex. now rewrite Hex.
    + repeat split.
      * intro H; now elim H.
      * discriminate.
      * discriminate.
      * intros [a' [rs' [Ha [Hrs _]]]]. injection Ha as <-. congruence.
  - repeat split.
    + discriminate.
    + discriminate.
    + discriminate.
    + intros [a' [rs' [Ha _]]]. discriminate.
Qed.

(** ** The peer power-down request *)

(** C9: [powerRequest] returns a non-nil error only when building the
    request failed locally (serialisation, URL, request creation, signing),
    and then that error; once the request is handed to the HTTP client the
    result is nil whatever comes back, and the response is dropped, its body
    closed when there is one. *)
Theorem powerRequest_errors {W : Type} (h : world W) (w : W) (p : PowerServer)
  (ip : string) (req : powerRequestBody) :
  let o := run h (powerRequest p ip req) w in
  value o = construction_error (trace o)
  /\ (forall r x, In (r, x) (http_exchanges (trace o)) ->
        value o = None
        /\ exists before,
             calls (trace o) =
             (before ++ HttpDo r :: match x with Ok _ => [BodyClose] | Err _ => [] end)%list)
  /\ (construction_error (trace o) = None -> http_exchanges (trace o) <> []).
Proof.
  cbv zeta. unfold powerRequest. symbolic.
  all: cbn.
  all: repeat split; try discriminate; try tauto.
  all: match goal with
       | H : _ \/ False |- _ => destruct H as [H | []]; injection H as <- <-
       end.
  all: eexists [_; _; _; _]; reflexivity.
Qed.

(** ** Reacting to one power event *)

(** C10: an event of another farm is ignored before anything is done; for
    an event of this node's farm the record of the affected node is fetched
    first, also when the event is about this node itself: then a successful
    fetch is followed by nothing (no power-up, no power-down) and nil is
    returned, and a failed fetch is returned as the error of the handler. *)
Theorem event_fetches_before_self_check {W : Type} (h : world W) (w : W)
  (p : PowerServer) (ev : PowerChangeEvent) :
  let o := run h (event p ev) w in
  let g := run h (getNode p (event_NodeID ev)) (snd (h (Log Debug received) w)) in
  (event_FarmID ev <> farm p ->
     event p ev = Ret None /\ value o = None /\ trace o = [])
  /\ (event_FarmID ev = farm p ->
      (exists rest,
         calls (trace o) = (Log Debug received :: calls (trace g) ++ rest)%list)
      /\ (event_NodeID ev = node p ->
          (forall nd, value g = Ok nd ->
             value o = None
             /\ calls (trace o) = Log Debug received :: calls (trace g))
          /\ (forall e, value g = Err e -> value o = Some e))).
Proof.
  cbv zeta. split.
  - intro Hfarm. apply Z.eqb_neq in Hfarm.
    unfold event. rewrite Hfarm. cbn. auto.
  - intro Hfarm. apply Z.eqb_eq in Hfarm.
    unfold event. rewrite Hfarm. cbn [negb].
    rewrite run_log, run_bind. fold received.
    set (g := run h (getNode p (event_NodeID ev)) (snd (h (Log Debug received) w))).
    unfold calls. cbn [trace value after map app].
    rewrite !map_app. split.
    + eexists. reflexivity.
    + intro Hself. apply Z.eqb_eq in Hself. split.
      * intros nd Hg. rewrite Hg, Hself. cbn. now rewrite app_nil_r.
      * intros e Hg. rewrite Hg. reflexivity.
Qed.

(** ** Self-sync *)

(** Whatever the record and the world, [syncSelf] writes at most the up
    state, never a down state. *)
Lemma syncSelf_never_writes_down {W : Type} (h : world W) (w : W) (p : PowerServer) :
  Forall (fun st => state_IsUp st = true /\ state_IsDown st = false)
         (ledger_writes (calls (trace (run h (syncSelf p) w)))).
Proof.
  unfold syncSelf, getNode, shutdown. symbolic.
  all: cbn; repeat constructor.
Qed.

Lemma ledger_writes_app (a b : list call) :
  ledger_writes (a ++ b) = (ledger_writes a ++ ledger_writes b)%list.
Proof.
  induction a as [| c a IH]; [ reflexivity | ].
  destruct c; cbn; now rewrite ?IH.
Qed.

Lemma calls_app (a b : list entry) : calls (a ++ b) = (calls a ++ calls b)%list.
Proof. apply map_app. Qed.

Lemma getNode_writes_nothing {W : Type} (h : world W) (w : W) (p : PowerServer)
  (id : uint32) :
  ledger_writes (calls (trace (run h (getNode p id) w))) = [].
Proof. unfold getNode. symbolic; reflexivity. Qed.

(** C1: the record of node 11 has the target up and the state already up,
    and the ledger is reachable: [syncSelf] still issues the "set state up"
    transaction.  The specification, like the comment of the branch ("state
    is down but target is up") and like the sibling branch, which tests
    [State.IsDown], has the transaction issued only when the recorded state
    is not up; this branch tests the target alone. *)
Theorem syncSelf_writes_although_up :
  let o := run (with_node settled calm) (syncSelf server) tt in
  target_IsUp (Target (Power settled)) = true
  /\ state_IsUp (State (Power settled)) = true
  /\ state_IsDown (State (Power settled)) = false
  /\ calls (trace o) =
     [Substrate; GetNode 11; SubClose; Substrate;
      SetNodePowerState (mkState true false 0)]
  /\ value o = None.
Proof. cbv zeta. repeat split. Qed.

(** What the branch does, for every record of this node with the target up:
    the "set state up" transaction is issued whenever a connection to the
    ledger is had, the recorded state unread, and none without a connection;
    a down transaction is never issued. *)
Lemma syncSelf_target_up {W : Type} (h : world W) (w : W) (p : PowerServer)
  (nd : Node) :
  let g := run h (getNode p (node p)) w in
  value g = Ok nd ->
  target_IsUp (Target (Power nd)) = true ->
  let o := run h (syncSelf p) w in
  ledger_writes (calls (trace o)) =
    match fst (h Substrate (final g)) with
    | Ok _ => [mkState true false 0]
    | Err _ => []
    end
  /\ Forall (fun st => state_IsUp st = true /\ state_IsDown st = false)
            (ledger_writes (calls (trace o))).
Proof.
  cbv zeta. intros Hg Hup. split; [ | apply syncSelf_never_writes_down ].
  unfold syncSelf. rewrite run_bind, Hg, Hup, run_perform. cbn [trace after].
  rewrite !calls_app, !ledger_writes_app, getNode_writes_nothing.
  destruct (fst (h Substrate _)) as [[] | e]; [ | reflexivity ].
  rewrite run_perform. now destruct (fst (h (SetNodePowerState _) _)).
Qed.

Example syncSelf_target_up_at_both_states :
  ledger_writes (calls (trace (run (with_node settled calm) (syncSelf server) tt))) =
  [mkState true false 0]
  /\ ledger_writes
       (calls (trace (run (with_node (neighbour 11 (mkTarget true false)
                                       (mkState false true 0) 0) calm)
                        (syncSelf server) tt))) =
     [mkState true false 0].
Proof.
  split.
  - exact (proj1 (syncSelf_target_up (with_node settled calm) tt server settled
                    eq_refl eq_refl)).
  - exact (proj1 (syncSelf_target_up
                    (with_node (neighbour 11 (mkTarget true false)
                                  (mkState false true 0) 0) calm)
                    tt server _ eq_refl eq_refl)).
Defined.

(** ** The event loop *)

Lemma filter_calls_avoided {W A : Type} (h : world W) (f : call -> bool)
  (p : prog A) :
  avoids f p -> forall w, filter f (calls (trace (run h p w))) = [].
Proof.
  induction p as [a | c k IH]; intros Hp w; [ reflexivity | ].
  destruct Hp as [Hc Hk]. cbn [run]. destruct (h c w) as [x w1].
  cbn [trace calls map filter entry_call]. rewrite Hc. now apply IH.
Qed.

Lemma avoids_bind {A B : Type} (f : call -> bool) (p : prog A) (k : A -> prog B) :
  avoids f p -> (forall a, avoids f (k a)) -> avoids f (bind p k).
Proof.
  induction p as [a | c q IH]; intros Hp Hk; cbn [bind avoids].
  - apply Hk.
  - destruct Hp as [Hc Hq]. split; [ exact Hc | ]. intro x. now apply IH.
Qed.

(** Straight-line programs: every call is looked at, every answer split. *)
Ltac straight :=
  repeat first
    [ exact I
    | reflexivity
    | split
    | match goal with
      | |- forall x : _, _ => let x := fresh "x" in intro x; cbn in x
      | |- context [match ?x with _ => _ end] => is_var x; destruct x
      | |- context [if ?b then _ else _] => destruct b
      end
    | progress cbn [avoids bind perform log closing loop_call] ].

Lemma getNode_off_loop (p : PowerServer) (id : uint32) :
  avoids loop_call (getNode p id).
Proof. unfold getNode. straight. Qed.

Lemma powerUp_off_loop (p : PowerServer) (nd : Node) : avoids loop_call (powerUp p nd).
Proof. unfold powerUp. straight. Qed.

Lemma IsDirect_off_loop (d : Direct) (ip : string) : avoids loop_call (IsDirect d ip).
Proof. unfold IsDirect. straight. Qed.

Lemma powerRequest_off_loop (p : PowerServer) (ip : string) (req : powerRequestBody) :
  avoids loop_call (powerRequest p ip req).
Proof. unfold powerRequest. straight. Qed.

Lemma powerDown_off_loop (p : PowerServer) (nd : Node) :
  avoids loop_call (powerDown p nd).
Proof.
  unfold powerDown. cbv zeta.
  generalize (mkRequest (node p) (ID nd) downTarget) as req.
  generalize (zos_ips (Interfaces nd)) as ips. intros ips req.
  apply avoids_bind; [ straight | intros _ ].
  apply avoids_bind; [ | intros _; exact I ].
  induction ips as [| ip rest IH]; [ exact I | ].
  cbn [powerDown_ips].
  apply avoids_bind; [ apply IsDirect_off_loop | ].
  intros [[|] [e |]].
  - apply avoids_bind; [ straight | intros _; exact IH ].
  - apply avoids_bind; [ apply powerRequest_off_loop | intros e ].
    apply avoids_bind; [ destruct e; straight | intros _; exact IH ].
  - apply avoids_bind; [ straight | intros _; exact IH ].
  - exact IH.
Qed.

Lemma event_off_loop (p : PowerServer) (ev : PowerChangeEvent) :
  avoids loop_call (event p ev).
Proof.
  unfold event. destruct (negb _); [ exact I | ].
  apply avoids_bind; [ straight | intros _ ].
  apply avoids_bind; [ apply getNode_off_loop | intros [nd | e] ]; [ | exact I ].
  destruct (_ =? _); [ exact I | ].
  destruct (target_IsDown _).
  - apply avoids_bind; [ straight | intros _; apply powerDown_off_loop ].
  - destruct (target_IsUp _); [ | exact I ].
    apply avoids_bind; [ straight | intros _; apply powerUp_off_loop ].
Qed.

Lemma recv_stream_off_loop (p : PowerServer) (stream : list PowerChangeEvent) :
  avoids loop_call (recv_stream p stream).
Proof.
  induction stream as [| ev rest IH]; [ exact I | ].
  cbn [recv_stream].
  apply avoids_bind; [ apply event_off_loop | intros e ].
  apply avoids_bind; [ destruct e; straight | intros _; exact IH ].
Qed.

(** [recv] subscribes once; it returns an error exactly when the
    subscription is refused. *)
Lemma recv_value {W : Type} (h : world W) (w : W) (p : PowerServer) :
  value (run h (recv p) w) =
  match fst (h Subscribe (snd (h (Log Info listening) w))) with
  | Ok _ => None
  | Err _ => Some (Wrap errConnectionError "failed to connect to zbus events")
  end.
Proof.
  unfold recv. rewrite run_log, value_after, run_perform, value_after.
  fold listening.
  destruct (fst (h Subscribe (snd (h (Log Info listening) w)))); [ | reflexivity ].
  now rewrite run_bind.
Qed.

Lemma recv_subscribes_once {W : Type} (h : world W) (w : W) (p : PowerServer) :
  filter loop_call (calls (trace (run h (recv p) w))) = [Subscribe].
Proof.
  unfold recv. rewrite run_log, run_perform. cbn [trace after app calls map filter
    entry_call loop_call].
  destruct (fst (h Subscribe _)) as [stream | e]; [ | reflexivity ].
  rewrite run_bind. cbn [trace after run]. rewrite app_nil_r.
  f_equal. apply (filter_calls_avoided h loop_call). apply recv_stream_off_loop.
Qed.

(** C2, as the claim states it, fails for a stream that ends: the
    subscription is established, the stream delivers one event and ends
    while the context is alive; [events] returns, having subscribed once and
    never waited for the ten-second timer, although it had fuel for three
    rounds. *)
Lemma events_returns_when_stream_ends :
  let o := run (with_stream [mkEvent 8 9 (mkTarget false true)] calm)
               (events server 3) tt in
  value o = Some tt
  /\ filter loop_call (calls (trace o)) = [Subscribe]
  /\ calls (trace o) =
     [MarkDone; Substrate; GetNode 11; SubClose;
      Log LogError "failed to synchronize power status with grid";
      Log Info listening; Subscribe].
Proof. cbv zeta. repeat split. Qed.

(** C2, amended: one round of the event loop.  When the subscription is
    refused the loop waits ten seconds; if the context is cancelled
    meanwhile it returns, otherwise it goes round again.  When the
    subscription is established and the stream ends, the loop returns at
    once: it has subscribed once, it neither waits nor subscribes again. *)
Theorem events_loop_round {W : Type} (h : world W) (w : W) (p : PowerServer)
  (n : nat) :
  let r := run h (recv p) w in
  let woke := h (Select 10) (final r) in
  let again := run h (events_loop p n) (snd woke) in
  let o := run h (events_loop p (S n)) w in
  match fst (h Subscribe (snd (h (Log Info listening) w))) with
  | Err _ =>
      match fst woke with
      | CtxDone =>
          value o = Some tt
          /\ filter loop_call (calls (trace o)) = [Subscribe; Select 10]
      | TimerFired =>
          value o = value again
          /\ filter loop_call (calls (trace o)) =
             Subscribe :: Select 10 :: filter loop_call (calls (trace again))
      end
  | Ok _ =>
      value o = Some tt
      /\ trace o = trace r
      /\ filter loop_call (calls (trace o)) = [Subscribe]
  end.
Proof.
  cbv zeta. pose proof (recv_value h w p) as Hr.
  pose proof (recv_subscribes_once h w p) as Hs.
  cbn [events_loop]. rewrite run_bind.
  destruct (fst (h Subscribe (snd (h (Log Info listening) w)))) as [stream | e];
    rewrite Hr.
  - cbn [run value trace final after]. rewrite app_nil_r. auto.
  - rewrite run_perform. cbn [value trace final after].
    rewrite !calls_app, !filter_app, Hs.
    destruct (fst (h (Select 10) (final (run h (recv p) w))));
      cbn [run value trace final]; split; reflexivity.
Qed.

(** The loop does retry a refused subscription: refused twice, it waits
    twice and subscribes three times. *)
Example events_retries_refused_subscription :
  let o := run (flaky (fun _ => false)) (events_loop server 5) 2%nat in
  value o = Some tt
  /\ filter loop_call (calls (trace o)) =
     [Subscribe; Select 10; Subscribe; Select 10; Subscribe].
Proof. cbv zeta. repeat split. Qed.

(** And it leaves when the context is cancelled during the wait. *)
Example events_leaves_on_cancel :
  let o := run (flaky (fun _ => true)) (events_loop server 5) 2%nat in
  value o = Some tt
  /\ filter loop_call (calls (trace o)) = [Subscribe; Select 10].
Proof. cbv zeta. repeat split. Qed.

(** Fuel only bounds the number of refusals the loop sits out. *)
Example events_out_of_fuel :
  value (run (flaky (fun _ => false)) (events_loop server 2) 2%nat) = None.
Proof. reflexivity. Qed.

(** ** The [/power] handler *)

(** [shutdown] always reaches the init system. *)
Lemma shutdown_reaches_init {W : Type} (h : world W) (w : W) (p : PowerServer) :
  In InitShutdown (calls (trace (run h (shutdown p) w))).
Proof.
  unfold shutdown. symbolic; cbn; tauto.
Qed.

Lemma power_validated_run {W : Type} (h : world W) (w : W) (p : PowerServer)
  (r : Request) (request : powerRequestBody) (w4 : W) :
  validated h w p r request w4 ->
  let st := mkState false true (req_Leader request) in
  let written := h (SetNodePowerState st) w4 in
  let s := run h (shutdown p) (snd written) in
  let o := run h (power p r) w in
  match fst written with
  | Err e =>
      value o = Error (Wrap e "failed to set power state")
      /\ calls (trace o) = (checks r ++ [SetNodePowerState st; SubClose])%list
  | Ok _ =>
      value o = match value s with
                | None => Accepted
                | Some e => Error e
                end
      /\ calls (trace o) =
         (checks r ++ SetNodePowerState st :: calls (trace s) ++ [SubClose])%list
  end.
Proof.
  intros (w1 & w2 & w3 & ln & H1 & H2 & H3 & H4 & H5 & H6 & H7). cbv zeta.
  unfold power.
  rewrite run_perform, H1; cbn [fst snd].
  rewrite run_perform, H2; cbn [fst snd].
  rewrite H3, Z.eqb_refl, H4, String.eqb_refl; cbn [negb].
  rewrite run_perform, H5; cbn [fst snd].
  unfold closing. rewrite run_bind, run_perform.
  rewrite <- H3, H6; cbn [fst snd]. rewrite H7, Z.eqb_refl; cbn [negb].
  rewrite run_perform, H3.
  destruct (h (SetNodePowerState (mkState false true (req_Leader request))) w4)
    as [[[] | e] w5]; cbn [fst snd].
  - rewrite run_bind, run_perform.
    set (s := run h (shutdown p) w5).
    unfold checks, calls, after; cbn [value trace final map app].
    rewrite !map_app, H3.
    destruct (value s); cbn [run value trace map app entry_call]; split;
      try reflexivity; now rewrite app_nil_r.
  - rewrite run_perform. unfold checks. rewrite H3. cbn. split; reflexivity.
Qed.

(** C3, as the claim states it, fails when the shutdown itself fails: the
    request of twin 5 passes every check, the down state with leader 5 is
    written, the init system is asked to shut down and refuses, and the
    response is an error, not 202 Accepted. *)
Lemma power_shutdown_failure_is_not_accepted :
  let h := with_init (Some (External "init is busy"))
             (with_body (mkRequest 5 11 "down") (with_node (leader_record 7) calm)) in
  let o := run h (power server from_leader) tt in
  validated h tt server from_leader (mkRequest 5 11 "down") tt
  /\ shutdown_calls (calls (trace o)) = [SendNow; InitShutdown]
  /\ In (SetNodePowerState (mkState false true 5)) (calls (trace o))
  /\ value o = Error (External "init is busy")
  /\ value o <> Accepted.
Proof.
  cbv zeta. split; [ | repeat split; [ cbn; tauto | discriminate ] ].
  exists tt, tt, tt, (leader_record 7). repeat split.
Qed.

(** C3, amended: on a request that passes every check the handler first
    writes the down state with the request's leader to the ledger.  If the
    write fails it responds with an error and no step of the local shutdown
    is taken.  If the write succeeds the local shutdown follows, and the
    response is 202 Accepted when the shutdown returns no error and that
    error otherwise. *)
Theorem power_writes_then_shuts_down {W : Type} (h : world W) (w : W)
  (p : PowerServer) (r : Request) (request : powerRequestBody) (w4 : W) :
  validated h w p r request w4 ->
  let st := mkState false true (req_Leader request) in
  let written := h (SetNodePowerState st) w4 in
  let s := run h (shutdown p) (snd written) in
  let o := run h (power p r) w in
  (exists rest, calls (trace o) = (checks r ++ SetNodePowerState st :: rest)%list)
  /\ match fst written with
     | Err e =>
         value o = Error (Wrap e "failed to set power state")
         /\ shutdown_calls (calls (trace o)) = []
     | Ok _ =>
         calls (trace o) =
         (checks r ++ SetNodePowerState st :: calls (trace s) ++ [SubClose])%list
         /\ In InitShutdown (calls (trace s))
         /\ (value s = None -> value o = Accepted)
         /\ (forall e, value s = Some e -> value o = Error e)
     end.
Proof.
  intro Hv. cbv zeta. pose proof (power_validated_run h w p r request w4 Hv) as H.
  cbv zeta in H.
  destruct (fst (h (SetNodePowerState (mkState false true (req_Leader request))) w4))
    as [[] | e].
  - destruct H as [Hval Hcalls]. split; [ eexists; exact Hcalls | ].
    split; [ exact Hcalls | ]. split; [ apply shutdown_reaches_init | ].
    rewrite Hval. split.
    + now intros ->.
    + now intros e ->.
  - destruct H as [Hval Hcalls]. split; [ eexists; exact Hcalls | ].
    split; [ exact Hval | ]. rewrite Hcalls. reflexivity.
Qed.

Lemma power_writes_then_shuts_down_witness :
  let h := with_body (mkRequest 5 11 "down") (with_node (leader_record 7) calm) in
  let o := run h (power server from_leader) tt in
  let refused := run (read_only h) (power server from_leader) tt in
  (exists rest,
     calls (trace o) =
     (checks from_leader ++ SetNodePowerState (mkState false true 5) :: rest)%list)
  /\ value o = Accepted
  /\ value refused = Error (Wrap (External "transaction failed") "failed to set power state")
  /\ shutdown_calls (calls (trace refused)) = [].
Proof.
  cbv zeta.
  assert (Hv : validated
                 (with_body (mkRequest 5 11 "down") (with_node (leader_record 7) calm))
                 tt server from_leader (mkRequest 5 11 "down") tt).
  { exists tt, tt, tt, (leader_record 7). repeat split. }
  assert (Hr : validated
                 (read_only
                    (with_body (mkRequest 5 11 "down") (with_node (leader_record 7) calm)))
                 tt server from_leader (mkRequest 5 11 "down") tt).
  { exists tt, tt, tt, (leader_record 7). repeat split. }
  destruct (power_writes_then_shuts_down _ tt server from_leader _ tt Hv)
    as [Hfirst Hrest].
  destruct (power_writes_then_shuts_down _ tt server from_leader _ tt Hr)
    as [_ Hrefused].
  split; [ exact Hfirst | ].
  cbn in Hrest. destruct Hrest as (_ & _ & Hok & _).
  split; [ apply Hok; reflexivity | exact Hrefused ].
Defined.

(** C6, as the claim states it, fails at the two checks that come before
    the target is looked at: a node that holds the leadership answers
    forbidden, and a caller who is not the leader named in the body is
    answered unauthorized, both with a body whose target is "up". *)
Lemma power_other_target_is_not_always_bad_request :
  let up := mkRequest 5 11 "up" in
  let other := mkRequest 6 11 "up" in
  req_Target up <> downTarget
  /\ fst (with_body up calm (JsonDecode (Body from_leader)) tt) = Ok up
  /\ value (run (leading (with_body up calm)) (power server from_leader) tt)
     = Forbidden (Errorf "is a leader node")
  /\ req_Target other <> downTarget
  /\ value (run (with_body other calm) (power server from_leader) tt)
     = UnAuthorized (Errorf "invalid leader id in request").
Proof. cbv zeta. repeat split; discriminate. Qed.

(** C6, amended: when the node does not hold the leadership, the body
    decodes and names the authenticated caller as its leader, a target other
    than "down" is answered with a bad-request rejection, before the ledger
    is consulted. *)
Theorem power_rejects_other_target {W : Type} (h : world W) (w w1 w2 : W)
  (p : PowerServer) (r : Request) (request : powerRequestBody) :
  h IsLeader w = (false, w1) ->
  h (JsonDecode (Body r)) w1 = (Ok request, w2) ->
  TwinID r = req_Leader request ->
  req_Target request <> downTarget ->
  let o := run h (power p r) w in
  value o = BadRequest (Errorf (String.append "unknown power target " (req_Target request)))
  /\ calls (trace o) = [IsLeader; JsonDecode (Body r)].
Proof.
  intros H1 H2 H3 H4. cbv zeta. unfold power.
  rewrite run_perform, H1; cbn [fst snd].
  rewrite run_perform, H2; cbn [fst snd].
  apply String.eqb_neq in H4.
  rewrite H3, Z.eqb_refl, H4; cbn. split; reflexivity.
Qed.

Lemma power_rejects_other_target_witness :
  let o := run (with_body (mkRequest 5 11 "up") calm) (power server from_leader) tt in
  value o = BadRequest (Errorf "unknown power target up")
  /\ calls (trace o) = [IsLeader; JsonDecode (Body from_leader)].
Proof.
  cbv zeta.
  apply (power_rejects_other_target (with_body (mkRequest 5 11 "up") calm)
           tt tt tt server from_leader (mkRequest 5 11 "up"));
    [ reflexivity | reflexivity | reflexivity | discriminate ].
Defined.

(** C7, as the claim states it, fails at the checks that come before the
    farm is compared: the leader named in the body is twin 5, on the ledger
    in farm 8 while this node is in farm 7, and the caller is twin 5; yet a
    node that holds the leadership answers forbidden, and a body whose
    target is "up" is answered with a bad request. *)
Lemma power_foreign_farm_is_not_always_unauthorized :
  let down := mkRequest 5 11 "down" in
  let up := mkRequest 5 11 "up" in
  let ledger := with_node (leader_record 8) calm in
  FarmID (leader_record 8) <> farm server
  /\ TwinID from_leader = req_Leader down
  /\ fst (ledger (GetNode (TwinID from_leader)) tt) = Ok (leader_record 8)
  /\ value (run (leading (with_body down ledger)) (power server from_leader) tt)
     = Forbidden (Errorf "is a leader node")
  /\ value (run (with_body up ledger) (power server from_leader) tt)
     = BadRequest (Errorf "unknown power target up").
Proof. cbv zeta. repeat split; discriminate. Qed.

(** C7, amended: when the node does not hold the leadership, the body
    decodes, names the authenticated caller as its leader and asks for the
    down target, and the ledger returns the leader's record, a leader whose
    farm differs from this node's is answered with an unauthorized
    rejection; nothing is written to the ledger and nothing is shut down. *)
Theorem power_rejects_foreign_farm {W : Type} (h : world W) (w w1 w2 w3 w4 : W)
  (p : PowerServer) (r : Request) (request : powerRequestBody) (leaderNode : Node) :
  h IsLeader w = (false, w1) ->
  h (JsonDecode (Body r)) w1 = (Ok request, w2) ->
  TwinID r = req_Leader request ->
  req_Target request = downTarget ->
  h Substrate w2 = (Ok tt, w3) ->
  h (GetNode (TwinID r)) w3 = (Ok leaderNode, w4) ->
  FarmID leaderNode <> farm p ->
  let o := run h (power p r) w in
  value o = UnAuthorized (Errorf "requesting node is not in the same farm")
  /\ calls (trace o) = (checks r ++ [SubClose])%list.
Proof.
  intros H1 H2 H3 H4 H5 H6 H7. cbv zeta. unfold power.
  rewrite run_perform, H1; cbn [fst snd].
  rewrite run_perform, H2; cbn [fst snd].
  rewrite <- H3, Z.eqb_refl, H4, String.eqb_refl; cbn [negb].
  rewrite run_perform, H5; cbn [fst snd].
  unfold closing. rewrite run_bind, run_perform, H6; cbn [fst snd].
  apply Z.eqb_neq in H7. rewrite H7; cbn [negb].
  rewrite run_perform. cbn. split; reflexivity.
Qed.

Lemma power_rejects_foreign_farm_witness :
  let h := with_body (mkRequest 5 11 "down") (with_node (leader_record 8) calm) in
  let o := run h (power server from_leader) tt in
  value o = UnAuthorized (Errorf "requesting node is not in the same farm")
  /\ calls (trace o) = (checks from_leader ++ [SubClose])%list.
Proof.
  cbv zeta.
  apply (power_rejects_foreign_farm
           (with_body (mkRequest 5 11 "down") (with_node (leader_record 8) calm))
           tt tt tt tt tt server from_leader (mkRequest 5 11 "down") (leader_record 8));
    [ reflexivity | reflexivity | reflexivity | reflexivity | reflexivity
    | reflexivity | discriminate ].
Defined.

(** ** Reconciling one neighbour *)

Lemma wakes_app (a b : list call) : wakes (a ++ b) = (wakes a ++ wakes b)%list.
Proof.
  induction a as [| c a IH]; [ reflexivity | ].
  destruct c; cbn; now rewrite ?IH.
Qed.

(** What [powerUp] does: one log line, then one magic packet to the MAC of
    the "zos" interface when the record has one. *)
Lemma powerUp_calls {W : Type} (h : world W) (w : W) (p : PowerServer) (nd : Node) :
  calls (trace (run h (powerUp p nd) w)) =
  Log Info "powering on node"
  :: (if String.eqb (zos_mac (Interfaces nd)) "" then []
      else [EtherWake (zos_mac (Interfaces nd))]).
Proof.
  unfold powerUp. rewrite run_log. cbv zeta.
  destruct (String.eqb (zos_mac (Interfaces nd)) ""); [ reflexivity | ].
  cbn [perform run]. now destruct (h _ _).
Qed.

Lemma IsDirect_wakes_nobody {W : Type} (h : world W) (w : W) (d : Direct) (ip : string) :
  wakes (calls (trace (run h (IsDirect d ip) w))) = [].
Proof. unfold IsDirect. symbolic; reflexivity. Qed.

Lemma powerRequest_wakes_nobody {W : Type} (h : world W) (w : W) (p : PowerServer)
  (ip : string) (req : powerRequestBody) :
  wakes (calls (trace (run h (powerRequest p ip req) w))) = [].
Proof. unfold powerRequest. symbolic; reflexivity. Qed.

Lemma powerDown_ips_wakes_nobody {W : Type} (h : world W) (p : PowerServer)
  (req : powerRequestBody) (ips : list string) :
  forall w, wakes (calls (trace (run h (powerDown_ips p req ips) w))) = [].
Proof.
  induction ips as [| ip rest IH]; intro w; [ reflexivity | ].
  cbn [powerDown_ips]. rewrite run_bind. cbn [trace after].
  rewrite calls_app, wakes_app, IsDirect_wakes_nobody. cbn [app].
  destruct (value (run h (IsDirect (direct p) ip) w)) as [[|] [e |]].
  - rewrite run_log. cbn [trace after]. rewrite calls_app, wakes_app, IH. reflexivity.
  - rewrite run_bind. cbn [trace after].
    rewrite calls_app, wakes_app, powerRequest_wakes_nobody. cbn [app].
    rewrite run_bind. cbn [trace after]. rewrite calls_app, wakes_app, IH.
    destruct (value (run h (powerRequest p ip req) _)); [ | reflexivity ].
    unfold log. cbn [perform run]. now destruct (h _ _).
  - rewrite run_log. cbn [trace after]. rewrite calls_app, wakes_app, IH. reflexivity.
  - apply IH.
Qed.

Lemma powerDown_wakes_nobody {W : Type} (h : world W) (w : W) (p : PowerServer)
  (nd : Node) :
  wakes (calls (trace (run h (powerDown p nd) w))) = [].
Proof.
  unfold powerDown. rewrite run_log. cbv zeta. cbn [trace after].
  rewrite calls_app, wakes_app, run_bind. cbn [trace after run].
  rewrite calls_app, wakes_app, powerDown_ips_wakes_nobody. reflexivity.
Qed.

(** [powerDown] announces itself, probes and asks, and returns nil. *)
Lemma powerDown_value {W : Type} (h : world W) (w : W) (p : PowerServer) (nd : Node) :
  value (run h (powerDown p nd) w) = None
  /\ exists rest,
       calls (trace (run h (powerDown p nd) w)) = Log Debug "powering off node" :: rest.
Proof.
  unfold powerDown. rewrite run_log. cbv zeta. rewrite run_bind.
  split; [ reflexivity | eexists; reflexivity ].
Qed.

(** ** The scenarios of the specification, run *)

(** A route that leaves through interface 2 without a gateway, and one
    through a gateway. *)
Example IsDirect_spec_witness :
  let lan := with_routes [10; 0; 0; 5] (Ok [mkRoute (Some [10; 0; 0; 1]) 2; mkRoute None 2]) calm in
  let down := with_routes [10; 0; 0; 5] (Err (External "network is unreachable")) calm in
  value (run lan (IsDirect (mkDirect 2) "10.0.0.5") tt) = (true, None)
  /\ value (run down (IsDirect (mkDirect 2) "10.0.0.5") tt) = (false, None)
  /\ snd (value (run calm (IsDirect (mkDirect 2) "not-an-ip") tt)) <> None.
Proof.
  cbv zeta. split; [ | split ].
  - apply (proj2 (proj2 (IsDirect_spec
             (with_routes [10; 0; 0; 5]
                (Ok [mkRoute (Some [10; 0; 0; 1]) 2; mkRoute None 2]) calm)
             tt (mkDirect 2) "10.0.0.5"))).
    exists [10; 0; 0; 5], [mkRoute (Some [10; 0; 0; 1]) 2; mkRoute None 2].
    split; [ reflexivity | split; [ reflexivity | ] ].
    exists (mkRoute None 2). cbn. tauto.
  - apply (proj1 (proj2 (IsDirect_spec
             (with_routes [10; 0; 0; 5] (Err (External "network is unreachable")) calm)
             tt (mkDirect 2) "10.0.0.5"))
             [10; 0; 0; 5] (External "network is unreachable"));
      reflexivity.
  - apply (proj1 (IsDirect_spec calm tt (mkDirect 2) "not-an-ip")). reflexivity.
Defined.

Example powerRequest_errors_witness :
  value (run (unreachable calm) (powerRequest server "10.0.0.5" (mkRequest 11 9 "down")) tt)
  = None
  /\ value (run (unsigned calm) (powerRequest server "10.0.0.5" (mkRequest 11 9 "down")) tt)
     = Some (External "bad key").
Proof.
  split.
  - destruct (powerRequest_errors (unreachable calm) tt server "10.0.0.5"
                (mkRequest 11 9 "down")) as (_ & Htransport & _).
    apply (Htransport
             (mkHttpRequest "POST" "http://10.0.0.5/power" "{}" (Some 11))
             (Err (External "no route to host"))).
    cbn. tauto.
  - exact (proj1 (powerRequest_errors (unsigned calm) tt server "10.0.0.5"
                    (mkRequest 11 9 "down"))).
Defined.

Example event_fetches_before_self_check_witness :
  let about_self := mkEvent 7 11 (mkTarget false true) in
  value (run (with_node settled calm) (event server about_self) tt) = None
  /\ calls (trace (run (with_node settled calm) (event server about_self) tt)) =
     [Log Debug received; Substrate; GetNode 11; SubClose]
  /\ value (run calm (event server about_self) tt) =
     Some (Wrap (External "no such node") "failed to get node information")
  /\ trace (run calm (event server (mkEvent 8 11 (mkTarget false true))) tt) = [].
Proof.
  cbv zeta.
  destruct (event_fetches_before_self_check (with_node settled calm) tt server
              (mkEvent 7 11 (mkTarget false true))) as [_ Hown].
  destruct (Hown eq_refl) as [_ Hself].
  destruct (Hself eq_refl) as [Hfetched _].
  destruct (Hfetched settled eq_refl) as [Hvalue Hcalls].
  destruct (event_fetches_before_self_check calm tt server
              (mkEvent 7 11 (mkTarget false true))) as [_ Hown'].
  destruct (Hown' eq_refl) as [_ Hself'].
  destruct (Hself' eq_refl) as [_ Hfailed].
  destruct (event_fetches_before_self_check calm tt server
              (mkEvent 8 11 (mkTarget false true))) as [Hforeign _].
  split; [ exact Hvalue | ]. split; [ exact Hcalls | ].
  split; [ exact (Hfailed _ eq_refl) | ].
  refine (proj2 (proj2 (Hforeign _))). discriminate.
Defined.

(** Node 11 of farm 7 learns that neighbour 9 shall go down; 10.0.0.5 is on
    the local link: exactly one signed request is posted. *)
Example event_down_posts_one_request :
  let lan := with_routes [10; 0; 0; 5] (Ok [mkRoute None 2])
               (with_node (neighbour 9 (mkTarget false true) (mkState true false 0) 0) calm) in
  let o := run lan (event server (mkEvent 7 9 (mkTarget false true))) tt in
  posts (calls (trace o)) = [mkHttpRequest "POST" "http://10.0.0.5/power" "{}" (Some 11)]
  /\ In (JsonEncode (mkRequest 11 9 "down")) (calls (trace o))
  /\ wakes (calls (trace o)) = []
  /\ value o = None.
Proof. cbv zeta. repeat split. cbn. tauto. Qed.

(** The same neighbour behind a gateway is not asked. *)
Example event_down_skips_routed_peer :
  let routed := with_routes [10; 0; 0; 5] (Ok [mkRoute (Some [10; 0; 0; 1]) 2])
                  (with_node (neighbour 9 (mkTarget false true) (mkState true false 0) 0) calm) in
  posts (calls (trace (run routed (event server (mkEvent 7 9 (mkTarget false true))) tt))) = [].
Proof. reflexivity. Qed.

(** With the target down and the state down, self-sync shuts the node
    down and writes nothing. *)
Example syncSelf_shuts_down_when_told :
  let told := mkNode 11 7 [] (mkPower (mkTarget false true) (mkState false true 5) 0) in
  let o := run (with_node told calm) (syncSelf server) tt in
  shutdown_calls (calls (trace o)) = [SendNow; InitShutdown]
  /\ ledger_writes (calls (trace o)) = []
  /\ wakes (calls (trace o)) = [].
Proof. cbv zeta. repeat split. Qed.

(** Without a connection to the ledger the handler answers with the
    connection's error, and nothing is written or shut down. *)
Example power_without_ledger :
  let o := run (disconnected (with_body (mkRequest 5 11 "down") calm))
               (power server from_leader) tt in
  value o = Error (External "connection refused")
  /\ calls (trace o) = [IsLeader; JsonDecode (Body from_leader); Substrate].
Proof. cbv zeta. repeat split. Qed.

(** Where the init system cannot shut down, the node reboots instead. *)
Example shutdown_falls_back_to_reboot :
  shutdown_calls
    (calls (trace (run (with_init (Some (Wrap ErrNotSupported "zinit")) calm)
                     (shutdown server) tt)))
  = [SendNow; InitShutdown; InitReboot].
Proof. reflexivity. Qed.

(** ** Beyond the claims: waking and powering down a neighbour *)

(** Programs whose calls are all in sight: every call is looked at, every
    answer split. *)
Ltac plain :=
  repeat first
    [ exact I
    | reflexivity
    | split
    | match goal with
      | |- forall x : _, _ => let x := fresh "x" in intro x; cbn in x
      | |- context [match ?x with _ => _ end] => is_var x; destruct x
      | |- context [if ?b then _ else _] => destruct b
      end
    | progress cbn ].

Lemma zos_mac_find (infs : list Interface) :
  zos_mac infs = match find is_zos infs with Some inf => Mac inf | None => "" end.
Proof.
  induction infs as [| inf rest IH]; [ reflexivity | ].
  cbn [zos_mac find]. unfold is_zos at 1. now destruct (String.eqb (Name inf) "zos").
Qed.

Lemma zos_ips_find (infs : list Interface) :
  zos_ips infs = match find is_zos infs with Some inf => IPs inf | None => [] end.
Proof.
  induction infs as [| inf rest IH]; [ reflexivity | ].
  cbn [zos_ips find]. unfold is_zos at 1. now destruct (String.eqb (Name inf) "zos").
Qed.

(** X1: [powerUp] wakes the MAC of the first interface named "zos" and of no
    other, with one magic packet whose outcome it returns; when the record
    has no such interface, or that interface has an empty MAC, it returns an
    error and sends nothing.  It never posts a request. *)
Theorem powerUp_first_zos_interface {W : Type} (h : world W) (w : W)
  (p : PowerServer) (nd : Node) :
  let o := run h (powerUp p nd) w in
  let w1 := snd (h (Log Info "powering on node") w) in
  posts (calls (trace o)) = []
  /\ match find is_zos (Interfaces nd) with
     | None => wakes (calls (trace o)) = [] /\ value o <> None
     | Some inf =>
         if String.eqb (Mac inf) "" then
           wakes (calls (trace o)) = [] /\ value o <> None
         else
           wakes (calls (trace o)) = [Mac inf]
           /\ value o = fst (h (EtherWake (Mac inf)) w1)
     end.
Proof.
  cbv zeta. unfold powerUp. rewrite run_log. cbv zeta.
  rewrite zos_mac_find.
  destruct (find is_zos (Interfaces nd)) as [inf |].
  - destruct (String.eqb (Mac inf) "").
    + cbn. repeat split; discriminate.
    + cbn [perform run]. destruct (h (EtherWake (Mac inf)) _) as [x w2].
      cbn. repeat split.
  - cbn. repeat split; discriminate.
Qed.

Lemma collect_app {A : Type} (f : call -> option A) (a b : list call) :
  collect f (a ++ b) = (collect f a ++ collect f b)%list.
Proof.
  induction a as [| c a IH]; [ reflexivity | ].
  cbn [app collect]. destruct (f c); cbn [app]; now rewrite IH.
Qed.

Lemma posts_app (a b : list call) : posts (a ++ b) = (posts a ++ posts b)%list.
Proof.
  induction a as [| c a IH]; [ reflexivity | ].
  destruct c; cbn; now rewrite ?IH.
Qed.

Lemma IsDirect_probes_once {W : Type} (h : world W) (w : W) (d : Direct) (ip : string) :
  probes (calls (trace (run h (IsDirect d ip) w))) = [ip]
  /\ asked (calls (trace (run h (IsDirect d ip) w))) = []
  /\ posts (calls (trace (run h (IsDirect d ip) w))) = [].
Proof. unfold IsDirect. symbolic; repeat split. Qed.

Lemma powerRequest_asks_once {W : Type} (h : world W) (w : W) (p : PowerServer)
  (ip : string) (req : powerRequestBody) :
  probes (calls (trace (run h (powerRequest p ip req) w))) = []
  /\ asked (calls (trace (run h (powerRequest p ip req) w))) = [req].
Proof. unfold powerRequest. symbolic; repeat split. Qed.

Lemma log_collect {W A : Type} (h : world W) (w : W) (lvl : level) (msg : string)
  (pick : call -> option A) :
  pick (Log lvl msg) = None ->
  collect pick (calls (trace (run h (log lvl msg) w))) = [].
Proof.
  intro Hpick. unfold log. cbn [perform run]. destruct (h _ _).
  cbn. now rewrite Hpick.
Qed.

(** Every address of the interface is probed, in order: neither a failed
    probe nor a failed request ends the loop. *)
Lemma powerDown_ips_probes {W : Type} (h : world W) (p : PowerServer)
  (req : powerRequestBody) (ips : list string) :
  forall w, probes (calls (trace (run h (powerDown_ips p req ips) w))) = ips.
Proof.
  induction ips as [| ip rest IH]; intro w; [ reflexivity | ].
  cbn [powerDown_ips]. rewrite run_bind. cbn [trace after].
  destruct (IsDirect_probes_once h w (direct p) ip) as (Hp & _).
  unfold probes in *. rewrite calls_app, collect_app, Hp. cbn [app]. f_equal.
  destruct (value (run h (IsDirect (direct p) ip) w)) as [[|] [e |]].
  - rewrite run_bind. cbn [trace after].
    rewrite calls_app, collect_app, log_collect by reflexivity. apply IH.
  - rewrite run_bind. cbn [trace after].
    destruct (powerRequest_asks_once h (final (run h (IsDirect (direct p) ip) w)) p ip req)
      as (Hp' & _).
    unfold probes in Hp'. rewrite calls_app, collect_app, Hp'. cbn [app].
    rewrite run_bind. cbn [trace after]. rewrite calls_app, collect_app, IH.
    destruct (value (run h (powerRequest p ip req) _)); [ | reflexivity ].
    now rewrite log_collect.
  - rewrite run_bind. cbn [trace after].
    rewrite calls_app, collect_app, log_collect by reflexivity. apply IH.
  - apply IH.
Qed.

Lemma posts_collect (cs : list call) :
  posts cs = collect (fun c => match c with HttpDo r => Some r | _ => None end) cs.
Proof.
  induction cs as [| c cs IH]; [ reflexivity | ].
  destruct c; cbn; now rewrite ?IH.
Qed.

Lemma powerRequest_posts_after_asking {W : Type} (h : world W) (w : W)
  (p : PowerServer) (ip : string) (req : powerRequestBody) :
  (List.length (posts (calls (trace (run h (powerRequest p ip req) w)))) <= 1)%nat.
Proof. unfold powerRequest. symbolic; cbn; lia. Qed.

(** Whatever the loop serialises is the one request it was given, and it
    posts at most as often as it serialises. *)
Lemma powerDown_ips_asks {W : Type} (h : world W) (p : PowerServer)
  (req : powerRequestBody) (ips : list string) :
  forall w,
    let cs := calls (trace (run h (powerDown_ips p req ips) w)) in
    Forall (eq req) (asked cs) /\ (List.length (posts cs) <= List.length (asked cs))%nat.
Proof.
  induction ips as [| ip rest IH]; intro w; cbv zeta;
    [ split; [ constructor | cbn; lia ] | ].
  cbn [powerDown_ips]. rewrite run_bind. cbn [trace after].
  destruct (IsDirect_probes_once h w (direct p) ip) as (_ & Ha & Hpo).
  unfold asked in *. rewrite calls_app, collect_app, posts_app, Ha, Hpo. cbn [app].
  destruct (value (run h (IsDirect (direct p) ip) w)) as [[|] [e |]].
  - rewrite run_bind. cbn [trace after].
    rewrite calls_app, collect_app, posts_app, posts_collect.
    rewrite !log_collect by reflexivity. apply IH.
  - rewrite run_bind. cbn [trace after].
    set (w1 := final (run h (IsDirect (direct p) ip) w)).
    destruct (powerRequest_asks_once h w1 p ip req) as (_ & Ha').
    pose proof (powerRequest_posts_after_asking h w1 p ip req) as Hpo'.
    unfold asked in Ha'. rewrite calls_app, collect_app, posts_app, Ha'.
    rewrite run_bind. cbn [trace after]. rewrite calls_app, collect_app, posts_app.
    set (w2 := final (run h (powerRequest p ip req) w1)).
    assert (Hlog : forall w',
               collect (fun c => match c with JsonEncode r => Some r | _ => None end)
                 (calls (trace (run h
                    match value (run h (powerRequest p ip req) w1) with
                    | Some _ => log LogError "failed to send power down request"
                    | None => Ret tt
                    end w'))) = []
               /\ posts (calls (trace (run h
                    match value (run h (powerRequest p ip req) w1) with
                    | Some _ => log LogError "failed to send power down request"
                    | None => Ret tt
                    end w'))) = []).
    { intro w'. destruct (value (run h (powerRequest p ip req) w1)); [ | split; reflexivity ].
      rewrite posts_collect, !log_collect by reflexivity. split; reflexivity. }
    destruct (Hlog w2) as [Hl1 Hl2]. rewrite Hl1, Hl2. cbn [app].
    match goal with
    | |- context [run h (powerDown_ips p req rest) ?w'] =>
        destruct (IH w') as [IH1 IH2]
    end.
    split; [ constructor; [ reflexivity | exact IH1 ] | ].
    rewrite length_app. cbn [List.length]. lia.
  - rewrite run_bind. cbn [trace after].
    rewrite calls_app, collect_app, posts_app, posts_collect.
    rewrite !log_collect by reflexivity. apply IH.
  - apply IH.
Qed.

Lemma powerDown_unfolds {W : Type} (h : world W) (w : W) (p : PowerServer) (nd : Node) :
  value (run h (powerDown p nd) w) = None
  /\ calls (trace (run h (powerDown p nd) w)) =
     Log Debug "powering off node"
     :: calls (trace (run h (powerDown_ips p (mkRequest (node p) (ID nd) downTarget)
                               (zos_ips (Interfaces nd)))
                        (snd (h (Log Debug "powering off node") w)))).
Proof.
  unfold powerDown. rewrite run_log. cbv zeta. rewrite run_bind.
  cbn [run value trace after calls map app entry_call]. split; [ reflexivity | ].
  now rewrite app_nil_r.
Qed.

(** X2: [powerDown] probes every address of the first interface named "zos",
    in order, whatever the earlier probes and requests came to, and always
    returns nil.  Every request it serialises names this node as leader, the
    record's id as node and "down" as target; it posts no more often than
    it serialises, and it sends no magic packet. *)
Theorem powerDown_probes_every_address {W : Type} (h : world W) (w : W)
  (p : PowerServer) (nd : Node) :
  let o := run h (powerDown p nd) w in
  value o = None
  /\ probes (calls (trace o)) =
     match find is_zos (Interfaces nd) with
     | Some inf => IPs inf
     | None => []
     end
  /\ Forall (eq (mkRequest (node p) (ID nd) "down")) (asked (calls (trace o)))
  /\ (List.length (posts (calls (trace o))) <= List.length (asked (calls (trace o))))%nat
  /\ wakes (calls (trace o)) = [].
Proof.
  cbv zeta. destruct (powerDown_unfolds h w p nd) as [Hv Hc].
  split; [ exact Hv | ]. rewrite Hc, <- zos_ips_find.
  split; [ apply powerDown_ips_probes | ].
  destruct (powerDown_ips_asks h p (mkRequest (node p) (ID nd) downTarget)
              (zos_ips (Interfaces nd)) (snd (h (Log Debug "powering off node") w)))
    as [Hasked Hposts].
  split; [ exact Hasked | ]. split; [ exact Hposts | ].
  rewrite <- Hc. apply powerDown_wakes_nobody.
Qed.

Lemma IsDirect_off_link {W : Type} (h : world W) (w : W) (d : Direct) (ip : string) :
  (forall a w' rs r, fst (h (RouteGet a) w') = Ok rs ->
                     In r rs -> Gw r = None -> LinkIndex r <> idx d) ->
  fst (value (run h (IsDirect d ip) w)) = false.
Proof.
  intro Hoff. rewrite IsDirect_value.
  destruct (fst (h (ParseIP ip) w)) as [a |]; [ | reflexivity ].
  destruct (fst (h (RouteGet a) _)) as [rs | e] eqn:Hrs; [ | reflexivity ].
  cbn [fst]. destruct (direct_route d rs) eqn:Hd; [ | reflexivity ].
  apply direct_route_true in Hd. destruct Hd as (r & Hin & Hgw & Hidx).
  now elim (Hoff _ _ _ _ Hrs Hin Hgw).
Qed.

Lemma IsDirect_on_link {W : Type} (h : world W) (w : W) (d : Direct) (ip : string) :
  (forall s w', fst (h (ParseIP s) w') <> None) ->
  (forall a w', exists rs r, fst (h (RouteGet a) w') = Ok rs
                             /\ In r rs /\ Gw r = None /\ LinkIndex r = idx d) ->
  value (run h (IsDirect d ip) w) = (true, None).
Proof.
  intros Hparse Hon. rewrite IsDirect_value.
  destruct (fst (h (ParseIP ip) w)) as [a |] eqn:Ha; [ | now elim (Hparse ip w) ].
  destruct (Hon a (snd (h (ParseIP ip) w))) as (rs & r & Hrs & Hr).
  rewrite Hrs. f_equal. apply direct_route_true. now exists r.
Qed.

Lemma powerDown_ips_off_link {W : Type} (h : world W) (p : PowerServer)
  (req : powerRequestBody) (ips : list string) :
  (forall a w' rs r, fst (h (RouteGet a) w') = Ok rs ->
                     In r rs -> Gw r = None -> LinkIndex r <> idx (direct p)) ->
  forall w, asked (calls (trace (run h (powerDown_ips p req ips) w))) = [].
Proof.
  intro Hoff. induction ips as [| ip rest IH]; intro w; [ reflexivity | ].
  cbn [powerDown_ips]. rewrite run_bind. cbn [trace after].
  destruct (IsDirect_probes_once h w (direct p) ip) as (_ & Ha & _).
  pose proof (IsDirect_off_link h w (direct p) ip Hoff) as Hfalse.
  unfold asked in *. rewrite calls_app, collect_app, Ha. cbn [app].
  destruct (value (run h (IsDirect (direct p) ip) w)) as [[|] [e |]];
    cbn [fst] in Hfalse; try discriminate.
  - rewrite run_bind. cbn [trace after].
    rewrite calls_app, collect_app, log_collect by reflexivity. apply IH.
  - apply IH.
Qed.

Lemma powerDown_ips_on_link {W : Type} (h : world W) (p : PowerServer)
  (req : powerRequestBody) (ips : list string) :
  (forall s w', fst (h (ParseIP s) w') <> None) ->
  (forall a w', exists rs r, fst (h (RouteGet a) w') = Ok rs
                             /\ In r rs /\ Gw r = None /\ LinkIndex r = idx (direct p)) ->
  forall w, asked (calls (trace (run h (powerDown_ips p req ips) w))) =
            map (fun _ => req) ips.
Proof.
  intros Hparse Hon. induction ips as [| ip rest IH]; intro w; [ reflexivity | ].
  cbn [powerDown_ips map]. rewrite run_bind. cbn [trace after].
  destruct (IsDirect_probes_once h w (direct p) ip) as (_ & Ha & _).
  rewrite (IsDirect_on_link h w (direct p) ip Hparse Hon).
  unfold asked in *. rewrite calls_app, collect_app, Ha. cbn [app].
  rewrite run_bind. cbn [trace after].
  set (w1 := final (run h (IsDirect (direct p) ip) w)).
  destruct (powerRequest_asks_once h w1 p ip req) as (_ & Ha').
  unfold asked in Ha'. rewrite calls_app, collect_app, Ha'. cbn [app]. f_equal.
  rewrite run_bind. cbn [trace after]. rewrite calls_app, collect_app, IH.
  destruct (value (run h (powerRequest p ip req) w1)); [ | reflexivity ].
  now rewrite log_collect.
Qed.

(** X3: when no route the kernel returns is one without gateway through the
    control interface, [powerDown] serialises no request and posts to
    nobody. *)
Theorem powerDown_off_link_sends_nothing {W : Type} (h : world W) (w : W)
  (p : PowerServer) (nd : Node) :
  (forall a w' rs r, fst (h (RouteGet a) w') = Ok rs ->
                     In r rs -> Gw r = None -> LinkIndex r <> idx (direct p)) ->
  let o := run h (powerDown p nd) w in
  asked (calls (trace o)) = [] /\ posts (calls (trace o)) = [].
Proof.
  intro Hoff. cbv zeta.
  destruct (powerDown_unfolds h w p nd) as [_ Hc]. rewrite Hc.
  change (asked (Log Debug "powering off node" :: ?cs)) with (asked cs).
  change (posts (Log Debug "powering off node" :: ?cs)) with (posts cs).
  pose proof (powerDown_ips_off_link h p (mkRequest (node p) (ID nd) downTarget)
                (zos_ips (Interfaces nd)) Hoff
                (snd (h (Log Debug "powering off node") w))) as Hasked.
  destruct (powerDown_ips_asks h p (mkRequest (node p) (ID nd) downTarget)
              (zos_ips (Interfaces nd)) (snd (h (Log Debug "powering off node") w)))
    as [_ Hle].
  split; [ exact Hasked | ].
  rewrite Hasked in Hle. cbn in Hle.
  destruct (posts _); [ reflexivity | cbn in Hle; lia ].
Qed.

(** X4: when every address parses and every route lookup returns a route
    without gateway through the control interface, [powerDown] serialises
    one request for each address of the "zos" interface, whatever became of
    the requests before it. *)
Theorem powerDown_on_link_asks_every_address {W : Type} (h : world W) (w : W)
  (p : PowerServer) (nd : Node) :
  (forall s w', fst (h (ParseIP s) w') <> None) ->
  (forall a w', exists rs r, fst (h (RouteGet a) w') = Ok rs
                             /\ In r rs /\ Gw r = None /\ LinkIndex r = idx (direct p)) ->
  asked (calls (trace (run h (powerDown p nd) w))) =
  map (fun _ => mkRequest (node p) (ID nd) "down")
      match find is_zos (Interfaces nd) with
      | Some inf => IPs inf
      | None => []
      end.
Proof.
  intros Hparse Hon.
  destruct (powerDown_unfolds h w p nd) as [_ Hc]. rewrite Hc, <- zos_ips_find.
  change (asked (Log Debug "powering off node" :: ?cs)) with (asked cs).
  now apply powerDown_ips_on_link.
Qed.

(** ** What a peer power-down and a power-up come to *)

Lemma calls_cons (e : entry) (t : list entry) :
  calls (e :: t) = entry_call e :: calls t.
Proof. reflexivity. Qed.

Lemma quiet_calls (cs : list call) :
  filter neighbour_call cs = [] -> wakes cs = [] /\ posts cs = [] /\ probes cs = [].
Proof.
  induction cs as [| c cs IH]; [ repeat split | ].
  destruct c; cbn; intro H; try discriminate; now apply IH.
Qed.

Lemma quiet_calls_more (cs : list call) :
  filter neighbour_call cs = [] -> asked cs = [] /\ urls cs = [].
Proof.
  induction cs as [| c cs IH]; [ repeat split | ].
  destruct c; cbn; intro H; try discriminate; now apply IH.
Qed.

Lemma IsDirect_builds_nothing {W : Type} (h : world W) (w : W) (d : Direct) (ip : string) :
  urls (calls (trace (run h (IsDirect d ip) w))) = [].
Proof. unfold IsDirect. symbolic; reflexivity. Qed.

(** Where requests can be built, [powerRequest] builds the URL of the
    address, on the port of the power server and with the path "power", and
    posts one request. *)
Lemma powerRequest_builds {W : Type} (h : world W) (w : W) (p : PowerServer)
  (ip : string) (req : powerRequestBody) :
  builds_requests h ->
  urls (calls (trace (run h (powerRequest p ip req) w))) = [(ip, 8039, "power")]
  /\ List.length (posts (calls (trace (run h (powerRequest p ip req) w)))) = 1%nat.
Proof.
  intro Hb. unfold powerRequest.
  rewrite run_perform.
  destruct (fst (h (JsonEncode req) w)) as [body | e] eqn:E1;
    [ | pose proof (Hb (JsonEncode req) w) as F; rewrite E1 in F; discriminate F ].
  rewrite run_perform.
  match goal with
  | |- context [h (BuildUrl ip PowerServerPort "power") ?w'] =>
      destruct (fst (h (BuildUrl ip PowerServerPort "power") w')) as [u | e] eqn:E2;
      [ | pose proof (Hb (BuildUrl ip PowerServerPort "power") w') as F;
          rewrite E2 in F; discriminate F ]
  end.
  rewrite run_perform.
  match goal with
  | |- context [h (NewRequest "POST" u body) ?w'] =>
      destruct (fst (h (NewRequest "POST" u body) w')) as [r0 | e] eqn:E3;
      [ | pose proof (Hb (NewRequest "POST" u body) w') as F;
          rewrite E3 in F; discriminate F ]
  end.
  rewrite run_perform.
  match goal with
  | |- context [h (SignedRequest (node p) r0) ?w'] =>
      destruct (fst (h (SignedRequest (node p) r0) w')) as [r1 | e] eqn:E4;
      [ | pose proof (Hb (SignedRequest (node p) r0) w') as F;
          rewrite E4 in F; discriminate F ]
  end.
  rewrite run_perform, run_bind.
  match goal with
  | |- context [fst (h (HttpDo r1) ?w')] => destruct (fst (h (HttpDo r1) w')) as [[] | e]
  end.
  - cbn [perform run]. destruct (h BodyClose _) as [[] w']. split; reflexivity.
  - split; reflexivity.
Qed.

(** On the link, where requests can be built, the loop of [powerDown]
    builds a URL and posts a request for every address. *)
Lemma powerDown_ips_posts_each {W : Type} (h : world W) (p : PowerServer)
  (req : powerRequestBody) (ips : list string) :
  on_link h (direct p) -> builds_requests h ->
  forall w,
    urls (calls (trace (run h (powerDown_ips p req ips) w))) =
    map (fun ip => (ip, 8039, "power")) ips
    /\ List.length (posts (calls (trace (run h (powerDown_ips p req ips) w)))) =
       List.length ips.
Proof.
  intros [Hparse Hon] Hb. induction ips as [| ip rest IH]; intro w; [ split; reflexivity | ].
  cbn [powerDown_ips map List.length]. rewrite run_bind. cbn [trace after].
  destruct (IsDirect_probes_once h w (direct p) ip) as (_ & _ & Hpo).
  pose proof (IsDirect_builds_nothing h w (direct p) ip) as Hu.
  rewrite (IsDirect_on_link h w (direct p) ip Hparse Hon).
  unfold urls in *. rewrite calls_app, collect_app, posts_app, Hu, Hpo. cbn [app].
  rewrite run_bind. cbn [trace after].
  set (w1 := final (run h (IsDirect (direct p) ip) w)).
  destruct (powerRequest_builds h w1 p ip req Hb) as [Hu' Hpo'].
  unfold urls in Hu'. rewrite calls_app, collect_app, posts_app, Hu', length_app, Hpo'.
  cbn [app]. rewrite run_bind. cbn [trace after].
  rewrite calls_app, collect_app, posts_app, length_app.
  match goal with
  | |- context [run h (powerDown_ips p req rest) ?w'] => destruct (IH w') as [IH1 IH2]
  end.
  rewrite IH1, IH2.
  destruct (value (run h (powerRequest p ip req) w1)).
  - rewrite posts_collect, !log_collect by reflexivity. split; reflexivity.
  - split; reflexivity.
Qed.

(** [powerDown] is a peer power-down. *)
Lemma powerDown_is_peer_power_down {W : Type} (h : world W) (w : W)
  (p : PowerServer) (nd : Node) :
  peer_power_down h p nd (calls (trace (run h (powerDown p nd) w))).
Proof.
  destruct (powerDown_unfolds h w p nd) as [_ Hc]. rewrite Hc.
  set (w1 := snd (h (Log Debug "powering off node") w)).
  set (req := mkRequest (node p) (ID nd) downTarget).
  unfold peer_power_down, zos_addresses. cbv zeta. rewrite <- zos_ips_find.
  change (mkRequest (node p) (ID nd) "down") with req.
  change (probes (Log Debug "powering off node" :: ?cs)) with (probes cs).
  change (asked (Log Debug "powering off node" :: ?cs)) with (asked cs).
  change (posts (Log Debug "powering off node" :: ?cs)) with (posts cs).
  change (wakes (Log Debug "powering off node" :: ?cs)) with (wakes cs).
  change (urls (Log Debug "powering off node" :: ?cs)) with (urls cs).
  destruct (powerDown_ips_asks h p req (zos_ips (Interfaces nd)) w1) as [Hall Hle].
  split; [ apply powerDown_ips_probes | ].
  split; [ exact Hall | ]. split; [ exact Hle | ].
  split; [ apply powerDown_ips_wakes_nobody | ].
  split.
  - intro Hoff.
    pose proof (powerDown_ips_off_link h p req (zos_ips (Interfaces nd)) Hoff w1) as Ha.
    split; [ exact Ha | ]. rewrite Ha in Hle. cbn in Hle.
    destruct (posts _); [ reflexivity | cbn in Hle; lia ].
  - intros Hon. split.
    + destruct Hon as [Hparse Hroutes]. now apply powerDown_ips_on_link.
    + intro Hb. now apply powerDown_ips_posts_each.
Qed.

(** Calls that reach no neighbour, put before a peer power-down or a
    power-up, leave it what it is. *)
Lemma peer_power_down_after {W : Type} (h : world W) (p : PowerServer) (nd : Node)
  (before cs : list call) :
  filter neighbour_call before = [] ->
  peer_power_down h p nd cs -> peer_power_down h p nd (before ++ cs).
Proof.
  intros Hq H. destruct (quiet_calls before Hq) as (Hw & Hp & Hpr).
  destruct (quiet_calls_more before Hq) as (Ha & Hu).
  unfold peer_power_down in *. cbv zeta in *.
  unfold probes, asked, urls in *.
  rewrite !collect_app, posts_app, wakes_app, Hw, Hp, Hpr, Ha, Hu. exact H.
Qed.

Lemma powerUp_is_wake_on_lan {W : Type} (h : world W) (w : W) (p : PowerServer)
  (nd : Node) :
  wake_on_lan nd (calls (trace (run h (powerUp p nd) w))).
Proof.
  rewrite powerUp_calls, zos_mac_find. unfold wake_on_lan, zos_address_to_wake.
  destruct (find is_zos (Interfaces nd)) as [inf |]; [ | repeat split ].
  destruct (String.eqb (Mac inf) ""); repeat split.
Qed.

Lemma wake_on_lan_after (nd : Node) (before cs : list call) :
  filter neighbour_call before = [] ->
  wake_on_lan nd cs -> wake_on_lan nd (before ++ cs).
Proof.
  intros Hq H. destruct (quiet_calls before Hq) as (Hw & Hp & Hpr).
  destruct (quiet_calls_more before Hq) as (Ha & _).
  unfold wake_on_lan in *. unfold probes, asked in *.
  rewrite !collect_app, posts_app, wakes_app, Hw, Hp, Hpr, Ha. exact H.
Qed.

(** ** Reconciling one neighbour: what is done *)

(** C4: for a neighbour whose record was fetched, with the target up or the
    state down the only thing [syncNode] may do is the Wake-on-LAN power-up,
    done exactly when [needNudge] finds the node overdue (one magic packet
    to the MAC of the "zos" interface, no probe, no request), and nothing is
    done otherwise; with the target not up and the state not down the
    peer power-down is attempted (every address of the "zos" interface is
    probed, a request for the down target is serialised for the addresses on
    the link and posted where it can be built) and no magic packet is
    sent. *)
Theorem syncNode_acts_by_target_and_state {W : Type} (h : world W) (w w1 : W)
  (p : PowerServer) (id : uint32) (nd : Node) :
  h (GetNode id) w = (Ok nd, w1) ->
  let o := run h (syncNode p id) w in
  let overdue :=
    value (run h (needNudge p id (to_uint64 (LastUpTime (Power nd)))) w1) in
  (target_IsUp (Target (Power nd)) = true \/ state_IsDown (State (Power nd)) = true ->
     posts (calls (trace o)) = []
     /\ (overdue = true ->
           calls (trace o) =
           GetNode id :: Now :: calls (trace (run h (powerUp p nd) (snd (h Now w1))))
           /\ value o = value (run h (powerUp p nd) (snd (h Now w1)))
           /\ wake_on_lan nd (calls (trace o)))
     /\ (overdue = false -> calls (trace o) = [GetNode id; Now] /\ value o = None))
  /\ (target_IsUp (Target (Power nd)) = false
      /\ state_IsDown (State (Power nd)) = false ->
     calls (trace o) = GetNode id :: calls (trace (run h (powerDown p nd) w1))
     /\ (exists rest, calls (trace o) = GetNode id :: Log Debug "powering off node" :: rest)
     /\ value o = None
     /\ wakes (calls (trace o)) = []
     /\ peer_power_down h p nd (calls (trace o))).
Proof.
  intro Hget. cbv zeta. unfold syncNode.
  rewrite run_perform, Hget; cbn [fst snd]. split.
  - intro Hcase.
    assert (Hor : target_IsUp (Target (Power nd)) || state_IsDown (State (Power nd)) = true)
      by (apply orb_true_iff; exact Hcase).
    rewrite Hor. rewrite run_bind.
    set (ts := to_uint64 (LastUpTime (Power nd))).
    assert (Hn : trace (run h (needNudge p id ts) w1) = [Did Now (fst (h Now w1))]
                 /\ final (run h (needNudge p id ts) w1) = snd (h Now w1)).
    { unfold needNudge. rewrite run_perform. split; reflexivity. }
    destruct Hn as [Htrace Hfinal]. rewrite Htrace, Hfinal.
    destruct (value (run h (needNudge p id ts) w1)).
    + cbn [after trace value calls map app entry_call].
      fold (calls (trace (run h (powerUp p nd) (snd (h Now w1))))).
      split; [ | split; [ intros _ | discriminate ] ].
      * rewrite powerUp_calls. now destruct (String.eqb _ _).
      * split; [ reflexivity | ]. split; [ reflexivity | ].
        apply (wake_on_lan_after nd [GetNode id; Now]); [ reflexivity | ].
        apply powerUp_is_wake_on_lan.
    + cbn. split; [ reflexivity | split; [ discriminate | auto ] ].
  - intros [Hup Hdown]. rewrite Hup, Hdown. cbn [orb].
    cbn [after trace value calls map app entry_call].
    fold (calls (trace (run h (powerDown p nd) w1))).
    destruct (powerDown_value h w1 p nd) as [Hval [rest Hcalls]].
    split; [ reflexivity | ].
    split; [ exists rest; now rewrite Hcalls | ].
    split; [ exact Hval | ].
    split; [ cbn [wakes]; apply powerDown_wakes_nobody | ].
    apply (peer_power_down_after h p nd [GetNode id]); [ reflexivity | ].
    apply powerDown_is_peer_power_down.
Qed.

Lemma syncNode_acts_by_target_and_state_witness :
  let up := neighbour 3 (mkTarget true false) (mkState true false 0) 0 in
  let lingering := neighbour 3 (mkTarget false true) (mkState true false 0) 0 in
  calls (trace (run (with_node up (at_time 108000)) (syncNode server 3) tt)) =
  [GetNode 3; Now; Log Info "powering on node"; EtherWake "52:54:00:12:34:56"]
  /\ calls (trace (run (with_node up (at_time 32399)) (syncNode server 3) tt)) =
     [GetNode 3; Now]
  /\ calls (trace (run (local_world lingering) (syncNode server 3) tt)) =
     [GetNode 3; Log Debug "powering off node";
      ParseIP "10.0.0.5"; RouteGet [10; 0; 0; 5];
      JsonEncode (mkRequest 11 3 "down"); BuildUrl "10.0.0.5" 8039 "power";
      NewRequest "POST" "http://10.0.0.5/power" "{}";
      SignedRequest 11 (mkHttpRequest "POST" "http://10.0.0.5/power" "{}" None);
      HttpDo (mkHttpRequest "POST" "http://10.0.0.5/power" "{}" (Some 11));
      BodyClose]
  /\ List.length
       (posts (calls (trace (run (local_world lingering) (syncNode server 3) tt)))) = 1%nat
  /\ posts (calls (trace (run (with_node lingering calm) (syncNode server 3) tt))) = [].
Proof.
  cbv zeta. split; [ | split; [ | split; [ | split ] ] ].
  - destruct (syncNode_acts_by_target_and_state
                (with_node (neighbour 3 (mkTarget true false) (mkState true false 0) 0)
                   (at_time 108000))
                tt tt server 3 _ eq_refl) as [Hup _].
    destruct (Hup (or_introl eq_refl)) as (_ & Hoverdue & _).
    exact (proj1 (Hoverdue eq_refl)).
  - destruct (syncNode_acts_by_target_and_state
                (with_node (neighbour 3 (mkTarget true false) (mkState true false 0) 0)
                   (at_time 32399))
                tt tt server 3 _ eq_refl) as [Hup _].
    destruct (Hup (or_introl eq_refl)) as (_ & _ & Hearly).
    exact (proj1 (Hearly eq_refl)).
  - destruct (syncNode_acts_by_target_and_state
                (local_world (neighbour 3 (mkTarget false true) (mkState true false 0) 0))
                tt tt server 3 _ eq_refl) as [_ Hdown].
    destruct (Hdown (conj eq_refl eq_refl)) as (Hcalls & _).
    exact Hcalls.
  - destruct (syncNode_acts_by_target_and_state
                (local_world (neighbour 3 (mkTarget false true) (mkState true false 0) 0))
                tt tt server 3 _ eq_refl) as [_ Hdown].
    destruct (Hdown (conj eq_refl eq_refl)) as (_ & _ & _ & _ & Hpeer).
    destruct Hpeer as (_ & _ & _ & _ & _ & Hon).
    assert (Hlink : on_link
                      (local_world (neighbour 3 (mkTarget false true)
                                      (mkState true false 0) 0))
                      (direct server)).
    { split.
      - intros s w'. cbn. discriminate.
      - intros a w'. exists [mkRoute None 2], (mkRoute None 2). cbn.
        repeat split. now left. }
    destruct (Hon Hlink) as [_ Hbuilt].
    assert (Hb : builds_requests
                   (local_world (neighbour 3 (mkTarget false true)
                                   (mkState true false 0) 0))).
    { intros c w'. destruct c; reflexivity. }
    exact (proj2 (Hbuilt Hb)).
  - destruct (syncNode_acts_by_target_and_state
                (with_node (neighbour 3 (mkTarget false true) (mkState true false 0) 0)
                   calm)
                tt tt server 3 _ eq_refl) as [_ Hdown].
    destruct (Hdown (conj eq_refl eq_refl)) as (_ & _ & _ & _ & Hpeer).
    destruct Hpeer as (_ & _ & _ & _ & Hoff & _).
    refine (proj2 (Hoff _)).
    intros a w' rs r Hrs Hin. cbn in Hrs. injection Hrs as <-. destruct Hin.
Defined.

(** ** Beyond the claims: shutting down and self-sync *)

(** X5: [shutdown] always asks the init system to shut down, once, after
    the attempt to send the uptime report and whatever that attempt came to.
    It asks for a reboot exactly when the answer to the shutdown unwraps to
    [zinit.ErrNotSupported], and then returns the answer to the reboot;
    otherwise it returns the answer to the shutdown.  It writes nothing to
    the ledger. *)
Theorem shutdown_falls_back_only_when_unsupported {W : Type} (h : world W) (w : W)
  (p : PowerServer) :
  let o := run h (shutdown p) w in
  exists e,
    picked shutdown_answer (trace o) = [e]
    /\ shutdown_calls (calls (trace o)) =
       SendNow :: InitShutdown
       :: (if errors_Is_ErrNotSupported e then [InitReboot] else [])
    /\ (if errors_Is_ErrNotSupported e
        then picked reboot_answer (trace o) = [value o]
        else picked reboot_answer (trace o) = [] /\ value o = e)
    /\ ledger_writes (calls (trace o)) = [].
Proof.
  cbv zeta. unfold shutdown. symbolic.
  all: eexists; split; [ reflexivity | ].
  all: match goal with E : errors_Is_ErrNotSupported _ = _ |- _ => rewrite E end.
  all: repeat split.
Qed.

Lemma shutdown_off_neighbours (p : PowerServer) : avoids neighbour_call (shutdown p).
Proof. unfold shutdown. plain. Qed.

Lemma getNode_off_neighbours (p : PowerServer) (id : uint32) :
  avoids neighbour_call (getNode p id).
Proof. unfold getNode. plain. Qed.

Lemma getNode_fetches_one {W : Type} (h : world W) (w : W) (p : PowerServer)
  (id : uint32) :
  let cs := calls (trace (run h (getNode p id) w)) in
  (fetched cs = [] \/ fetched cs = [id])
  /\ (forall nd, value (run h (getNode p id) w) = Ok nd -> fetched cs = [id]).
Proof.
  cbv zeta. unfold getNode. symbolic; cbn; split; auto; discriminate.
Qed.

Lemma shutdown_writes_nothing {W : Type} (h : world W) (w : W) (p : PowerServer) :
  ledger_writes (calls (trace (run h (shutdown p) w))) = [].
Proof. unfold shutdown. symbolic; reflexivity. Qed.

Lemma shutdown_fetches_nothing {W : Type} (h : world W) (w : W) (p : PowerServer) :
  fetched (calls (trace (run h (shutdown p) w))) = [].
Proof. unfold shutdown. symbolic; reflexivity. Qed.

(** X6: for a record of this node whose target is not up, [syncSelf] writes
    nothing to the ledger; when the recorded state is down it shuts the node
    down and returns what [shutdown] returns; when the recorded state is not
    down it does nothing after the fetch and returns nil. *)
Theorem syncSelf_target_down {W : Type} (h : world W) (w : W) (p : PowerServer)
  (nd : Node) :
  let g := run h (getNode p (node p)) w in
  value g = Ok nd ->
  target_IsUp (Target (Power nd)) = false ->
  let o := run h (syncSelf p) w in
  let s := run h (shutdown p) (final g) in
  ledger_writes (calls (trace o)) = []
  /\ if state_IsDown (State (Power nd))
     then calls (trace o) = (calls (trace g) ++ calls (trace s))%list
          /\ value o = value s
     else calls (trace o) = calls (trace g) /\ value o = None.
Proof.
  cbv zeta. intros Hg Hup. unfold syncSelf. rewrite run_bind, Hg, Hup.
  cbn [trace after value]. rewrite calls_app, ledger_writes_app, getNode_writes_nothing.
  destruct (state_IsDown (State (Power nd))).
  - rewrite shutdown_writes_nothing. repeat split.
  - cbn. rewrite app_nil_r. repeat split.
Qed.

(** X7: [syncSelf] never reaches out to a neighbour: it sends no magic
    packet, probes no address and posts no request; and the only record it
    fetches is this node's own. *)
Theorem syncSelf_leaves_neighbours_alone {W : Type} (h : world W) (w : W)
  (p : PowerServer) :
  let cs := calls (trace (run h (syncSelf p) w)) in
  filter neighbour_call cs = []
  /\ (fetched cs = [] \/ fetched cs = [node p]).
Proof.
  cbv zeta. split.
  - apply filter_calls_avoided. unfold syncSelf.
    apply avoids_bind; [ apply getNode_off_neighbours | intros [nd | e] ]; [ | exact I ].
    cbv zeta. destruct (target_IsUp _); [ plain | ].
    destruct (state_IsDown _); [ apply shutdown_off_neighbours | exact I ].
  - unfold syncSelf. rewrite run_bind. cbn [trace after].
    unfold fetched. rewrite calls_app, collect_app.
    destruct (getNode_fetches_one h w p (node p)) as [Hcases _].
    unfold fetched in Hcases.
    assert (Hrest : forall r w1,
               collect (fun c => match c with GetNode id => Some id | _ => None end)
                 (calls (trace (run h
                    match r with
                    | Ok nd =>
                        let power := Power nd in
                        if target_IsUp (Target power)
                        then
                          c <- perform Substrate;;
                          match c with
                          | Ok _ =>
                              s <- perform (SetNodePowerState (mkState true false 0));;
                              match s with
                              | Ok _ => Ret (errors_Wrap None "failed to set state to up")
                              | Err e =>
                                  Ret (errors_Wrap (Some e) "failed to set state to up")
                              end
                          | Err e => Ret (Some e)
                          end
                        else if state_IsDown (State power) then shutdown p else Ret None
                    | Err e => Ret (Some e)
                    end w1))) = []).
    { intros [nd | e] w1; [ | reflexivity ]. cbv zeta.
      destruct (target_IsUp _); [ symbolic; reflexivity | ].
      destruct (state_IsDown _); [ apply shutdown_fetches_nothing | reflexivity ]. }
    rewrite Hrest, app_nil_r. exact Hcases.
Qed.

(** ** Beyond the claims: events about neighbours *)

(** Which calls a function makes, read once for every way of picking calls:
    [f] picks none of the calls of the function as soon as it picks none of
    the calls named in the hypotheses. *)
Ltac unpicked :=
  repeat first
    [ exact I
    | assumption
    | split
    | match goal with
      | H : forall c, neighbour_call c = true -> _ |- _ = false =>
          apply H; reflexivity
      | H : forall x, _ = false |- _ = false => apply H
      | |- forall x : _, _ => let x := fresh "x" in intro x; cbn in x
      | |- context [match ?x with _ => _ end] => is_var x; destruct x
      | |- context [if ?b then _ else _] => destruct b
      end
    | progress cbn [avoids bind perform log closing] ].

Lemma getNode_avoids (f : call -> bool) (p : PowerServer) (id : uint32) :
  f Substrate = false -> f (GetNode id) = false -> f SubClose = false ->
  avoids f (getNode p id).
Proof. intros H1 H2 H3. unfold getNode. unpicked. Qed.

Lemma powerUp_avoids (f : call -> bool) (p : PowerServer) (nd : Node) :
  f (Log Info "powering on node") = false ->
  (forall c, neighbour_call c = true -> f c = false) ->
  avoids f (powerUp p nd).
Proof. intros H1 H2. unfold powerUp. unpicked. Qed.

Lemma powerDown_avoids (f : call -> bool) (p : PowerServer) (nd : Node) :
  f (Log Debug "powering off node") = false ->
  f (Log LogError "failed to send power down request") = false ->
  (forall c, neighbour_call c = true -> f c = false) ->
  avoids f (powerDown p nd).
Proof.
  intros H1 H2 H3. unfold powerDown. cbv zeta.
  generalize (mkRequest (node p) (ID nd) downTarget) as req.
  generalize (zos_ips (Interfaces nd)) as ips. intros ips req.
  apply avoids_bind; [ unpicked | intros _ ].
  apply avoids_bind; [ | intros _; exact I ].
  induction ips as [| ip rest IH]; [ exact I | ].
  cbn [powerDown_ips].
  apply avoids_bind; [ unfold IsDirect; unpicked | ].
  intros [[|] [e |]].
  - apply avoids_bind; [ unpicked | intros _; exact IH ].
  - apply avoids_bind; [ unfold powerRequest; unpicked | intros e ].
    apply avoids_bind; [ destruct e; unpicked | intros _; exact IH ].
  - apply avoids_bind; [ unpicked | intros _; exact IH ].
  - exact IH.
Qed.

(** X8: an event of this node's farm about another node whose record was
    fetched.  With the target down the peer power-down runs (every address
    of the "zos" interface probed, a request for the down target serialised
    for the addresses on the link and posted where it can be built) and nil
    is returned, with no magic packet, also when the event marks the target
    as up as well; with the target up and not down the Wake-on-LAN power-up
    runs (one magic packet to the MAC of the "zos" interface) and its result
    is returned, with no request posted; with neither mark nothing more is
    done. *)
Theorem event_about_neighbour {W : Type} (h : world W) (w : W) (p : PowerServer)
  (ev : PowerChangeEvent) (nd : Node) :
  let g := run h (getNode p (event_NodeID ev)) (snd (h (Log Debug received) w)) in
  event_FarmID ev = farm p ->
  event_NodeID ev <> node p ->
  value g = Ok nd ->
  let o := run h (event p ev) w in
  let fetch := Log Debug received :: calls (trace g) in
  if target_IsDown (event_Target ev) then
    let d := run h (powerDown p nd)
               (snd (h (Log Info "received an event to power down") (final g))) in
    calls (trace o) =
      (fetch ++ Log Info "received an event to power down" :: calls (trace d))%list
    /\ value o = None
    /\ wakes (calls (trace o)) = []
    /\ peer_power_down h p nd (calls (trace o))
  else if target_IsUp (event_Target ev) then
    let u := run h (powerUp p nd)
               (snd (h (Log Info "received an event to power up") (final g))) in
    calls (trace o) =
      (fetch ++ Log Info "received an event to power up" :: calls (trace u))%list
    /\ value o = value u
    /\ posts (calls (trace o)) = []
    /\ wake_on_lan nd (calls (trace o))
  else
    calls (trace o) = fetch /\ value o = None.
Proof.
  cbv zeta. intros Hfarm Hother Hg.
  apply Z.eqb_eq in Hfarm. apply Z.eqb_neq in Hother.
  assert (Hquiet : filter neighbour_call
                     (calls (trace (run h (getNode p (event_NodeID ev))
                                      (snd (h (Log Debug received) w))))) = []).
  { apply filter_calls_avoided. now apply getNode_avoids. }
  assert (Hbefore : forall msg,
             filter neighbour_call
               ((Log Debug received
                 :: calls (trace (run h (getNode p (event_NodeID ev))
                                    (snd (h (Log Debug received) w)))))
                ++ [Log Info msg]) = []).
  { intro msg. rewrite filter_app. cbn [filter neighbour_call]. now rewrite Hquiet. }
  destruct (quiet_calls _ Hquiet) as (Hw & Hp & _).
  unfold event. rewrite Hfarm. cbn [negb]. rewrite run_log, run_bind. fold received.
  rewrite Hg, Hother.
  destruct (target_IsDown (event_Target ev)).
  - rewrite run_log. cbn [trace after value app].
    rewrite !calls_cons, calls_app, !calls_cons. cbn [entry_call].
    destruct (powerDown_unfolds h
                (snd (h (Log Info "received an event to power down")
                        (final (run h (getNode p (event_NodeID ev))
                                  (snd (h (Log Debug received) w)))))) p nd)
      as [Hv _].
    split; [ reflexivity | ]. split; [ exact Hv | ].
    split; [ cbn [wakes]; rewrite wakes_app, Hw; cbn [app wakes];
             apply powerDown_wakes_nobody | ].
    match goal with
    | |- peer_power_down _ _ _ (?a :: ?cs ++ ?b :: ?ds) =>
        change (a :: cs ++ b :: ds) with ((a :: cs) ++ [b] ++ ds)%list
    end.
    rewrite app_assoc. apply peer_power_down_after; [ apply Hbefore | ].
    apply powerDown_is_peer_power_down.
  - destruct (target_IsUp (event_Target ev)).
    + rewrite run_log. cbn [trace after value app].
      rewrite !calls_cons, calls_app, !calls_cons. cbn [entry_call].
      split; [ reflexivity | ]. split; [ reflexivity | ].
      split; [ cbn [posts]; rewrite posts_app, Hp; cbn [app posts];
               rewrite powerUp_calls; now destruct (String.eqb _ _) | ].
      match goal with
      | |- wake_on_lan _ (?a :: ?cs ++ ?b :: ?ds) =>
          change (a :: cs ++ b :: ds) with ((a :: cs) ++ [b] ++ ds)%list
      end.
      rewrite app_assoc. apply wake_on_lan_after; [ apply Hbefore | ].
      apply powerUp_is_wake_on_lan.
    + cbn [run trace after value app]. rewrite calls_cons, app_nil_r.
      split; reflexivity.
Qed.

Lemma is_received_not_neighbour (c : call) :
  neighbour_call c = true -> is_received c = false.
Proof. destruct c; cbn; intro H; try reflexivity; discriminate. Qed.

Lemma event_received_once {W : Type} (h : world W) (w : W) (p : PowerServer)
  (ev : PowerChangeEvent) :
  filter is_received (calls (trace (run h (event p ev) w))) =
  if event_FarmID ev =? farm p then [Log Debug received] else [].
Proof.
  unfold event. destruct (event_FarmID ev =? farm p); [ | reflexivity ].
  cbn [negb]. rewrite run_log. cbn [trace after app]. rewrite calls_cons.
  cbn [filter entry_call]. change (is_received (Log Debug "received power event for farm"))
    with true. cbv iota. f_equal.
  apply filter_calls_avoided.
  apply avoids_bind; [ now apply getNode_avoids | intros [nd | e] ]; [ | exact I ].
  destruct (_ =? _); [ exact I | ].
  destruct (target_IsDown _).
  - apply avoids_bind; [ repeat split | intros _ ].
    apply powerDown_avoids; try reflexivity. apply is_received_not_neighbour.
  - destruct (target_IsUp _); [ | exact I ].
    apply avoids_bind; [ repeat split | intros _ ].
    apply powerUp_avoids; try reflexivity. apply is_received_not_neighbour.
Qed.

Lemma recv_stream_received {W : Type} (h : world W) (p : PowerServer)
  (stream : list PowerChangeEvent) :
  forall w,
    filter is_received (calls (trace (run h (recv_stream p stream) w))) =
    map (fun _ => Log Debug received)
        (filter (fun ev => event_FarmID ev =? farm p) stream).
Proof.
  induction stream as [| ev rest IH]; intro w; [ reflexivity | ].
  cbn [recv_stream]. rewrite run_bind. cbn [trace after].
  rewrite calls_app, filter_app, event_received_once.
  rewrite run_bind. cbn [trace after]. rewrite calls_app, filter_app, IH.
  assert (Hlog : forall (e : err) w1,
             filter is_received
               (calls (trace (run h
                  match e with
                  | Some _ => log LogError "failed to process power event"
                  | None => Ret tt
                  end w1))) = []).
  { intros [e |] w1; [ | reflexivity ].
    apply filter_calls_avoided. repeat split. }
  rewrite Hlog. cbn [filter app]. now destruct (event_FarmID ev =? farm p).
Qed.

Lemma sync_mark_not_neighbour (c : call) : neighbour_call c = true -> sync_mark c = false.
Proof. destruct c; cbn; intro H; try reflexivity; discriminate. Qed.

Lemma unmarked_fetch_nothing (cs : list call) : filter sync_mark cs = [] -> fetched cs = [].
Proof.
  induction cs as [| c cs IH]; [ reflexivity | ].
  destruct c; cbn; intro H; try discriminate; now apply IH.
Qed.

(** With a connection, [getNode] asks the ledger for the record, once. *)
Lemma getNode_fetches_when_connected {W : Type} (h : world W) (w : W)
  (p : PowerServer) (id : uint32) :
  (forall w', exists u, fst (h Substrate w') = Ok u) ->
  fetched (calls (trace (run h (getNode p id) w))) = [id].
Proof.
  intro Hc. unfold getNode. rewrite run_perform.
  destruct (Hc w) as [u Hu]. rewrite Hu. rewrite run_perform, run_perform.
  now destruct (fst (h (GetNode id) _)).
Qed.

(** With a connection, [event] asks for the record of the event's node when
    the event is of this node's farm, and for no other record. *)
Lemma event_fetches_its_node {W : Type} (h : world W) (w : W) (p : PowerServer)
  (ev : PowerChangeEvent) :
  (forall w', exists u, fst (h Substrate w') = Ok u) ->
  fetched (calls (trace (run h (event p ev) w))) =
  if event_FarmID ev =? farm p then [event_NodeID ev] else [].
Proof.
  intro Hc. unfold event. destruct (event_FarmID ev =? farm p); [ | reflexivity ].
  cbn [negb]. rewrite run_log, run_bind. cbn [trace after app]. rewrite calls_cons.
  cbn [entry_call]. change (fetched (Log Debug "received power event for farm" :: ?cs))
    with (fetched cs).
  unfold fetched. rewrite calls_app, collect_app.
  fold (fetched (calls (trace (run h (getNode p (event_NodeID ev))
                                 (snd (h (Log Debug "received power event for farm") w)))))).
  rewrite getNode_fetches_when_connected by exact Hc.
  cbn [app]. f_equal.
  apply (unmarked_fetch_nothing _). apply filter_calls_avoided.
  destruct (value (run h (getNode p (event_NodeID ev)) _)) as [nd | e]; [ | exact I ].
  destruct (_ =? _); [ exact I | ].
  destruct (target_IsDown _).
  - apply avoids_bind; [ repeat split | intros _ ].
    apply powerDown_avoids; try reflexivity. apply sync_mark_not_neighbour.
  - destruct (target_IsUp _); [ | exact I ].
    apply avoids_bind; [ repeat split | intros _ ].
    apply powerUp_avoids; try reflexivity. apply sync_mark_not_neighbour.
Qed.

Lemma recv_stream_fetches {W : Type} (h : world W) (p : PowerServer)
  (stream : list PowerChangeEvent) :
  (forall w', exists u, fst (h Substrate w') = Ok u) ->
  forall w,
    fetched (calls (trace (run h (recv_stream p stream) w))) =
    map event_NodeID (filter (fun ev => event_FarmID ev =? farm p) stream).
Proof.
  intro Hc. induction stream as [| ev rest IH]; intro w; [ reflexivity | ].
  cbn [recv_stream]. rewrite run_bind. cbn [trace after].
  unfold fetched. rewrite calls_app, collect_app.
  fold (fetched (calls (trace (run h (event p ev) w)))).
  rewrite event_fetches_its_node by exact Hc.
  rewrite run_bind. cbn [trace after]. rewrite calls_app, collect_app.
  match goal with
  | |- context [run h (recv_stream p rest) ?w'] =>
      fold (fetched (calls (trace (run h (recv_stream p rest) w')))); rewrite (IH w')
  end.
  assert (Hlog : forall (e : err) w1,
             collect (fun c => match c with GetNode id => Some id | _ => None end)
               (calls (trace (run h
                  match e with
                  | Some _ => log LogError "failed to process power event"
                  | None => Ret tt
                  end w1))) = []).
  { intros [e |] w1; [ | reflexivity ]. now apply log_collect. }
  rewrite Hlog. cbn [filter app]. now destruct (event_FarmID ev =? farm p).
Qed.

(** X9: once the subscription is established, [recv] hands every event of
    the stream that belongs to this node's farm to [event], in the order of
    the stream and whatever the handling of the earlier events returned: one
    "received" line is logged for each of them and, where the ledger
    connects, the records asked for are those of the events' nodes, in the
    order of the stream; it returns nil when the stream ends.  When the
    subscription is refused it takes up nothing and returns an error that
    wraps [errConnectionError]. *)
Theorem recv_takes_up_every_event {W : Type} (h : world W) (w : W) (p : PowerServer) :
  let o := run h (recv p) w in
  match fst (h Subscribe (snd (h (Log Info listening) w))) with
  | Ok stream =>
      value o = None
      /\ filter is_received (calls (trace o)) =
         map (fun _ => Log Debug received)
             (filter (fun ev => event_FarmID ev =? farm p) stream)
      /\ ((forall w', exists u, fst (h Substrate w') = Ok u) ->
          fetched (calls (trace o)) =
          map event_NodeID (filter (fun ev => event_FarmID ev =? farm p) stream))
  | Err _ =>
      filter is_received (calls (trace o)) = []
      /\ fetched (calls (trace o)) = []
      /\ exists msg, value o = Some (Wrap errConnectionError msg)
  end.
Proof.
  cbv zeta. unfold recv. rewrite run_log, run_perform. fold listening.
  destruct (fst (h Subscribe (snd (h (Log Info listening) w)))) as [stream | e].
  - rewrite run_bind. cbn [run trace after value app].
    rewrite !calls_cons, app_nil_r. cbn [entry_call filter is_received].
    split; [ reflexivity | ]. split; [ apply recv_stream_received | ].
    intro Hc.
    change (fetched (Log Info listening :: Subscribe :: ?cs)) with (fetched cs).
    now apply recv_stream_fetches.
  - cbn. split; [ reflexivity | ]. split; [ reflexivity | eexists; reflexivity ].
Qed.

Lemma filter_head_In {A : Type} (f : A -> bool) (l : list A) (a : A) (rest : list A) :
  filter f l = a :: rest -> In a l.
Proof.
  intro H. assert (Hin : In a (filter f l)) by (rewrite H; now left).
  now apply filter_In in Hin.
Qed.

(** X10: [events] first waits for the uptime mark, then runs the self-sync,
    and then subscribes to the event stream whatever the self-sync
    returned. *)
Theorem events_subscribes_after_self_sync {W : Type} (h : world W) (w : W)
  (p : PowerServer) (n : nat) :
  let s := run h (syncSelf p) (snd (h MarkDone w)) in
  exists rest,
    calls (trace (run h (events p (S n)) w)) =
    (MarkDone :: calls (trace s) ++ rest)%list
    /\ In Subscribe rest.
Proof.
  cbv zeta. unfold events. rewrite run_perform, run_bind, run_bind.
  cbn [trace after app]. rewrite calls_cons, calls_app, calls_app. cbn [entry_call].
  eexists. split; [ reflexivity | ].
  apply in_or_app. right.
  cbn [events_loop]. rewrite run_bind. cbn [trace after]. rewrite calls_app.
  apply in_or_app. left.
  eapply filter_head_In. apply recv_subscribes_once.
Qed.

(** ** Beyond the claims: what the [/power] handler touches *)

Ltac leader_is_caller :=
  repeat match goal with
         | E : negb (_ =? _) = false |- _ =>
             apply negb_false_iff in E; apply Z.eqb_eq in E
         end.

(** X11: a request the handler rejects (bad request, unauthorized,
    forbidden) leaves no trace on the ledger and starts no shutdown.  A
    request it accepts has written exactly one state, down with the caller as
    leader, and has reached the init system.  Whatever the response, at most
    one state is written. *)
Theorem power_rejection_has_no_effect {W : Type} (h : world W) (w : W)
  (p : PowerServer) (r : Request) :
  let o := run h (power p r) w in
  (List.length (ledger_writes (calls (trace o))) <= 1)%nat
  /\ match value o with
     | BadRequest _ | UnAuthorized _ | Forbidden _ =>
         ledger_writes (calls (trace o)) = []
         /\ shutdown_calls (calls (trace o)) = []
     | Accepted =>
         ledger_writes (calls (trace o)) = [mkState false true (TwinID r)]
         /\ In InitShutdown (calls (trace o))
     | Error _ => True
     end.
Proof.
  cbv zeta. unfold power, shutdown. symbolic.
  all: leader_is_caller.
  all: cbn; repeat split; try lia; try tauto.
  all: match goal with E : TwinID _ = _ |- _ => now rewrite E end.
Qed.

(** X12: every ledger connection the handler opens it closes before it
    returns, as the last thing it does; the same holds for [getNode]. *)
Theorem power_closes_what_it_opens {W : Type} (h : world W) (w : W)
  (p : PowerServer) (r : Request) (id : uint32) :
  let o := run h (power p r) w in
  let g := run h (getNode p id) w in
  picked opens (trace o) = picked closes (trace o)
  /\ (picked opens (trace o) <> [] ->
      exists before, calls (trace o) = (before ++ [SubClose])%list)
  /\ picked opens (trace g) = picked closes (trace g).
Proof.
  cbv zeta. split; [ | split ].
  - unfold power, shutdown. symbolic; reflexivity.
  - unfold power, shutdown. symbolic; cbn; intro H; try (now elim H).
    all: match goal with
         | |- exists before, ?l = _ =>
             exists (removelast l); cbn; reflexivity
         end.
  - unfold getNode. symbolic; reflexivity.
Qed.

(** X13: what the handler has consulted when it rejects.  A forbidden
    rejection comes after the leadership test alone, the body undecoded; a
    bad-request rejection comes without any access to the ledger; an
    unauthorized rejection comes either without any access to the ledger
    (the caller is not the leader named in the body) or after the leader's
    record was fetched and the connection closed. *)
Theorem power_rejects_early {W : Type} (h : world W) (w : W) (p : PowerServer)
  (r : Request) :
  let o := run h (power p r) w in
  match value o with
  | Forbidden _ => calls (trace o) = [IsLeader]
  | BadRequest _ => calls (trace o) = [IsLeader; JsonDecode (Body r)]
  | UnAuthorized _ =>
      calls (trace o) = [IsLeader; JsonDecode (Body r)]
      \/ calls (trace o) = (checks r ++ [SubClose])%list
  | Accepted | Error _ =>
      exists rest, calls (trace o) = (IsLeader :: JsonDecode (Body r) :: Substrate :: rest)%list
  end.
Proof.
  cbv zeta. unfold power, shutdown. symbolic.
  all: cbn; auto.
  all: eexists; reflexivity.
Qed.

(** ** Beyond the claims: construction and the periodic sync *)

Section RunningThePackage.
Context {W : Type} (h : eworld W).

Lemma erun_bind {A B : Type} (p : eprog A) (f : A -> eprog B) (w : W) :
  erun h (ebind p f) w =
  mkEOutcome (evalue (erun h (f (evalue (erun h p w))) (efinal (erun h p w))))
             (etrace (erun h p w)
              ++ etrace (erun h (f (evalue (erun h p w))) (efinal (erun h p w))))
             (efinal (erun h (f (evalue (erun h p w))) (efinal (erun h p w)))).
Proof.
  revert w; induction p as [a | c k IH]; intro w; cbn [ebind erun].
  - cbn. now destruct (erun h (f a) w).
  - destruct (h c w) as [x w1]. rewrite IH. reflexivity.
Qed.

Lemma erun_perform {A : Type} (c : ecall) (f : eresp c -> eprog A) (w : W) :
  erun h (ebind (eperform c) f) w =
  mkEOutcome (evalue (erun h (f (fst (h c w))) (snd (h c w))))
             (EDid c (fst (h c w)) :: etrace (erun h (f (fst (h c w))) (snd (h c w))))
             (efinal (erun h (f (fst (h c w))) (snd (h c w)))).
Proof.
  cbn [ebind eperform erun]. destruct (h c w) as [x w1]; reflexivity.
Qed.

(** A program of the power protocol runs in a world of the package as it
    runs in the part of that world that answers the power protocol. *)
Lemma erun_lift {A : Type} (p : prog A) (w : W) :
  erun h (lift p) w =
  mkEOutcome (value (run (base_world h) p w))
             (map lift_entry (trace (run (base_world h) p w)))
             (final (run (base_world h) p w)).
Proof.
  revert w; induction p as [a | c k IH]; intro w; cbn [lift erun run].
  - reflexivity.
  - change (base_world h c w) with (h (Base c) w).
    destruct (h (Base c) w) as [x w1]. rewrite IH. reflexivity.
Qed.
End RunningThePackage.

Lemma ecalls_app (a b : list eentry) : ecalls (a ++ b) = (ecalls a ++ ecalls b)%list.
Proof. apply map_app. Qed.

Lemma ecalls_cons (e : eentry) (t : list eentry) :
  ecalls (e :: t) = eentry_call e :: ecalls t.
Proof. reflexivity. Qed.

Lemma ecollect_app {A : Type} (f : ecall -> option A) (a b : list ecall) :
  ecollect f (a ++ b) = (ecollect f a ++ ecollect f b)%list.
Proof.
  induction a as [| c a IH]; [ reflexivity | ].
  cbn [app ecollect]. destruct (f c); cbn [app]; now rewrite IH.
Qed.

Lemma epicked_app {A : Type} (pick : eentry -> option A) (a b : list eentry) :
  epicked pick (a ++ b) = (epicked pick a ++ epicked pick b)%list.
Proof.
  induction a as [| e a IH]; [ reflexivity | ].
  cbn [app epicked]. destruct (pick e); cbn [app]; now rewrite IH.
Qed.

(** What is picked from the lifted trace of a program that makes none of
    the calls the picking looks at. *)
Lemma ecollect_lifted {A : Type} (f : ecall -> option A) (g : call -> bool)
  (t : list entry) :
  (forall c, g c = false -> f (Base c) = None) ->
  filter g (calls t) = [] ->
  ecollect f (ecalls (map lift_entry t)) = [].
Proof.
  intros Hfg. induction t as [| [c x] t IH]; [ reflexivity | ].
  cbn [calls map filter entry_call ecalls lift_entry eentry_call ecollect].
  destruct (g c) eqn:Hg; [ discriminate | ].
  intro H. rewrite (Hfg c Hg). now apply IH.
Qed.

Lemma epicked_lifted {A : Type} (pick : eentry -> option A) (g : call -> bool)
  (t : list entry) :
  (forall c x, g c = false -> pick (EDid (Base c) x) = None) ->
  filter g (calls t) = [] ->
  epicked pick (map lift_entry t) = [].
Proof.
  intros Hfg. induction t as [| [c x] t IH]; [ reflexivity | ].
  cbn [calls map filter entry_call lift_entry epicked].
  destruct (g c) eqn:Hg; [ discriminate | ].
  intro H. rewrite (Hfg c x Hg). now apply IH.
Qed.

Lemma log_lifted {W : Type} (h : eworld W) (w : W) (lvl : level) (msg : string) :
  etrace (erun h (lift (log lvl msg)) w) = [EDid (Base (Log lvl msg)) tt].
Proof.
  unfold log. cbn [perform lift erun]. now destruct (h _ _) as [[] w1].
Qed.

Lemma enableWol_nics_tunes_each {W : Type} (h : eworld W) (nics : list string) :
  forall w,
    ecollect tuned (ecalls (etrace (erun h (enableWol_nics nics) w))) = nics
    /\ epicked setup_failure (etrace (erun h (enableWol_nics nics) w)) = []
    /\ epicked link (etrace (erun h (enableWol_nics nics) w)) = [].
Proof.
  induction nics as [| nic rest IH]; intro w; [ repeat split | ].
  cbn [enableWol_nics]. rewrite erun_perform. cbn [etrace evalue efinal].
  rewrite erun_bind. cbn [etrace].
  set (w1 := snd (h (Ethtools nic) w)).
  set (l := etrace (erun h
               match fst (h (Ethtools nic) w) with
               | Some _ => lift (log LogError "failed to enable WOL for nic")
               | None => ERet tt
               end w1)).
  assert (Hlog : ecollect tuned (ecalls l) = []
                 /\ epicked setup_failure l = [] /\ epicked link l = []).
  { subst l. destruct (fst (h (Ethtools nic) w)); [ | repeat split ].
    rewrite log_lifted. repeat split. }
  destruct Hlog as (L1 & L2 & L3).
  match goal with
  | |- context [erun h (enableWol_nics rest) ?w'] => destruct (IH w') as (I1 & I2 & I3)
  end.
  change (ecalls (?e :: ?t)) with (eentry_call e :: ecalls t).
  cbn [ecollect epicked eentry_call tuned setup_failure link].
  rewrite ecalls_app, ecollect_app, !epicked_app, L1, L2, L3, I1, I2, I3.
  repeat split.
Qed.

(** X14: [enableWol] fails only when the bridge or the list of its NICs
    cannot be had, with that error wrapped, and then runs ethtools on
    nothing; otherwise it runs ethtools on every attached NIC, in order and
    whatever ethtools answered for the ones before, and returns nil. *)
Theorem enableWol_tunes_every_nic {W : Type} (h : eworld W) (w : W) (inf : string) :
  let o := erun h (enableWol inf) w in
  match fst (h (BridgeGet inf) w) with
  | Err e =>
      evalue o = Some (Wrap e "failed to get zos bridge")
      /\ ecollect tuned (ecalls (etrace o)) = []
  | Ok br =>
      match fst (h (BridgeListNics br) (snd (h (BridgeGet inf) w))) with
      | Err e =>
          evalue o = Some (Wrap e "failed to list attached nics to zos bridge")
          /\ ecollect tuned (ecalls (etrace o)) = []
      | Ok nics =>
          evalue o = None /\ ecollect tuned (ecalls (etrace o)) = nics
      end
  end.
Proof.
  cbv zeta. unfold enableWol. rewrite erun_perform.
  destruct (fst (h (BridgeGet inf) w)) as [br | e]; [ | split; reflexivity ].
  rewrite erun_perform.
  destruct (fst (h (BridgeListNics br) _)) as [nics | e]; [ | split; reflexivity ].
  rewrite erun_bind. cbn [evalue etrace erun ecalls map eentry_call ecollect tuned].
  split; [ reflexivity | ].
  fold (ecalls (etrace (erun h (enableWol_nics nics)
                         (snd (h (BridgeListNics br) (snd (h (BridgeGet inf) w))))) ++ [])).
  rewrite app_nil_r. apply enableWol_nics_tunes_each.
Qed.

Lemma enableWol_failure {W : Type} (h : eworld W) (w : W) (inf : string) :
  let o := erun h (enableWol inf) w in
  epicked link (etrace o) = []
  /\ match evalue o with
     | Some e => exists c msg, e = Wrap c msg /\ epicked setup_failure (etrace o) = [c]
     | None => epicked setup_failure (etrace o) = []
     end.
Proof.
  cbv zeta. unfold enableWol. rewrite erun_perform.
  destruct (fst (h (BridgeGet inf) w)) as [br | e];
    [ | split; [ reflexivity | eexists; eexists; split; reflexivity ] ].
  rewrite erun_perform.
  destruct (fst (h (BridgeListNics br) _)) as [nics | e];
    [ | split; [ reflexivity | eexists; eexists; split; reflexivity ] ].
  rewrite erun_bind. cbn [evalue etrace erun epicked link setup_failure].
  rewrite app_nil_r.
  destruct (enableWol_nics_tunes_each h nics
              (snd (h (BridgeListNics br) (snd (h (BridgeGet inf) w)))))
    as (_ & H2 & H3).
  split; assumption.
Qed.

Lemma enableWol_nics_sets_up_nothing {W : Type} (h : eworld W) (nics : list string) :
  forall w,
    ecollect setup_step (ecalls (etrace (erun h (enableWol_nics nics) w))) = []
    /\ epicked bridge_found (etrace (erun h (enableWol_nics nics) w)) = []
    /\ epicked nics_listed (etrace (erun h (enableWol_nics nics) w)) = [].
Proof.
  induction nics as [| nic rest IH]; intro w; [ repeat split | ].
  cbn [enableWol_nics]. rewrite erun_perform. cbn [etrace evalue efinal].
  rewrite erun_bind. cbn [etrace].
  set (w1 := snd (h (Ethtools nic) w)).
  set (l := etrace (erun h
               match fst (h (Ethtools nic) w) with
               | Some _ => lift (log LogError "failed to enable WOL for nic")
               | None => ERet tt
               end w1)).
  assert (Hlog : ecollect setup_step (ecalls l) = []
                 /\ epicked bridge_found l = [] /\ epicked nics_listed l = []).
  { subst l. destruct (fst (h (Ethtools nic) w)); [ | repeat split ].
    rewrite log_lifted. repeat split. }
  destruct Hlog as (L1 & L2 & L3).
  match goal with
  | |- context [erun h (enableWol_nics rest) ?w'] => destruct (IH w') as (I1 & I2 & I3)
  end.
  change (ecalls (?e :: ?t)) with (eentry_call e :: ecalls t).
  cbn [ecollect epicked eentry_call setup_step bridge_found nics_listed].
  rewrite ecalls_app, ecollect_app, !epicked_app, L1, L2, L3, I1, I2, I3.
  repeat split.
Qed.

(** X15: [NewPowerServer] returns a server exactly when the bridge "zos",
    the list of its NICs, the identity and the link "zos" could all be had,
    asked in this order and each once; what ethtools answers does not
    matter.  The server then carries the farm and the node it was given,
    and its direct-link probe the index of the link "zos"; the NICs listed
    were those of the bridge found, and ethtools ran on each of them.  When
    construction fails, the steps taken are the first [n] of the four, the
    [n]-th is the one that failed, and the error returned is its error:
    wrapped in the message of that step for the bridge, the NICs and the
    identity, bare for the link.  Ethtools then ran on the NICs listed, if
    they were. *)
Theorem NewPowerServer_needs_bridge_identity_link {W : Type} (h : eworld W) (w : W)
  (farm0 node0 : uint32) :
  let o := erun h (NewPowerServer farm0 node0) w in
  match evalue o with
  | Ok srv =>
      farm srv = farm0 /\ node srv = node0
      /\ epicked setup_failure (etrace o) = []
      /\ epicked link (etrace o) = [("zos", Ok (idx (direct srv)))]
      /\ exists br nics,
           ecollect setup_step (ecalls (etrace o)) = setup_steps br
           /\ epicked bridge_found (etrace o) = [br]
           /\ epicked nics_listed (etrace o) = [nics]
           /\ ecollect tuned (ecalls (etrace o)) = nics
  | Err e =>
      exists c, epicked setup_failure (etrace o) = [c]
                /\ (e = c \/ exists msg, e = Wrap c msg)
                /\ exists br n,
                     (1 <= n <= 4)%nat
                     /\ ecollect setup_step (ecalls (etrace o)) = firstn n (setup_steps br)
                     /\ e = setup_error n c
                     /\ epicked bridge_found (etrace o) = (if (2 <=? n)%nat then [br] else [])
                     /\ ecollect tuned (ecalls (etrace o))
                        = List.concat (epicked nics_listed (etrace o))
  end.
Proof.
  cbv zeta. unfold NewPowerServer, enableWol. rewrite erun_bind, erun_perform.
  destruct (fst (h (BridgeGet wolInterface) w)) as [br | e].
  2:{ cbn. exists e. split; [ reflexivity | ]. split; [ right; eexists; reflexivity | ].
      exists "", 1%nat. repeat split; lia. }
  rewrite erun_perform.
  destruct (fst (h (BridgeListNics br) _)) as [nics | e].
  2:{ cbn. exists e. split; [ reflexivity | ]. split; [ right; eexists; reflexivity | ].
      exists br, 2%nat. repeat split; lia. }
  rewrite erun_bind.
  match goal with
  | |- context [erun h (enableWol_nics nics) ?w'] =>
      destruct (enableWol_nics_tunes_each h nics w') as (T1 & T2 & T3);
      destruct (enableWol_nics_sets_up_nothing h nics w') as (S1 & S2 & S3);
      set (loop := erun h (enableWol_nics nics) w') in *
  end.
  cbn [evalue etrace efinal erun]. rewrite app_nil_r, erun_perform.
  destruct (fst (h NewIdentityFromEd25519Key _)) as [[] | e].
  2:{ cbn [evalue etrace efinal erun app]. rewrite !ecalls_cons, ecalls_app, !ecalls_cons.
      cbn [epicked ecollect eentry_call setup_failure setup_step bridge_found nics_listed tuned].
      rewrite !epicked_app, !ecollect_app, T1, T2, S1, S2, S3.
      cbn. exists e. split; [ reflexivity | ]. split; [ right; eexists; reflexivity | ].
      exists br, 3%nat. rewrite app_nil_r. repeat split; lia. }
  unfold NewDirect. rewrite erun_bind, erun_perform.
  destruct (fst (h (LinkByName wolInterface) _)) as [index | e];
    cbn [evalue etrace efinal erun app]; rewrite !ecalls_cons, ecalls_app, !ecalls_cons;
    cbn [epicked ecollect eentry_call setup_failure setup_step bridge_found nics_listed
         tuned link ecalls map];
    rewrite !epicked_app, !ecollect_app, T1, T2, ?T3, S1, S2, S3; cbn.
  - repeat split. exists br, nics. rewrite app_nil_r. repeat split.
  - exists e. split; [ reflexivity | ]. split; [ now left | ].
    exists br, 4%nat. rewrite app_nil_r. repeat split; lia.
Qed.

(** ** The periodic sync *)

Lemma syncNode_fetches_first {W : Type} (h : world W) (w : W) (p : PowerServer)
  (id : uint32) :
  exists rest,
    calls (trace (run h (syncNode p id) w)) = GetNode id :: rest
    /\ filter sync_mark rest = [].
Proof.
  unfold syncNode. rewrite run_perform. cbn [trace after app]. rewrite calls_cons.
  cbn [entry_call]. eexists. split; [ reflexivity | ].
  apply filter_calls_avoided.
  destruct (fst (h (GetNode id) w)) as [nd | e]; [ | exact I ].
  destruct (_ || _).
  - apply avoids_bind; [ repeat split | intros [|] ]; [ | exact I ].
    apply powerUp_avoids; [ reflexivity | ].
    intros c Hc. destruct c; try discriminate; reflexivity.
  - apply powerDown_avoids; try reflexivity.
    intros c Hc. destruct c; try discriminate; reflexivity.
Qed.

Lemma syncNodes_ids_asks_each {W : Type} (h : eworld W) (p : PowerServer)
  (ids : list uint32) :
  forall w,
    let t := etrace (erun h (syncNodes_ids p ids) w) in
    ecollect asked_node (ecalls t) = ids
    /\ ecollect closing_call (ecalls t) = []
    /\ epicked wait t = [].
Proof.
  induction ids as [| id rest IH]; intro w; cbv zeta; [ repeat split | ].
  cbn [syncNodes_ids]. rewrite erun_bind, erun_lift. cbn [etrace evalue efinal].
  rewrite erun_bind. cbn [etrace].
  destruct (syncNode_fetches_first (base_world h) w p id) as (more & Hcalls & Hquiet).
  set (t1 := trace (run (base_world h) (syncNode p id) w)) in *.
  set (l := etrace (erun h
               match value (run (base_world h) (syncNode p id) w) with
               | Some _ => lift (log LogError "failed to sync node power status")
               | None => ERet tt
               end (final (run (base_world h) (syncNode p id) w)))).
  assert (Hlog : ecollect asked_node (ecalls l) = []
                 /\ ecollect closing_call (ecalls l) = [] /\ epicked wait l = []).
  { subst l. destruct (value (run (base_world h) (syncNode p id) w)); [ | repeat split ].
    rewrite log_lifted. repeat split. }
  destruct Hlog as (L1 & L2 & L3).
  match goal with
  | |- context [erun h (syncNodes_ids p rest) ?w'] =>
      destruct (IH w') as (I1 & I2 & I3); cbv zeta in I1, I2, I3
  end.
  rewrite !ecalls_app, !ecollect_app, !epicked_app, L1, L2, L3, I1, I2, I3.
  cbn [app].
  assert (Hfirst : ecollect asked_node (ecalls (map lift_entry t1)) = [id]
                   /\ ecollect closing_call (ecalls (map lift_entry t1)) = []
                   /\ epicked wait (map lift_entry t1) = []).
  { destruct t1 as [| [c x] t1]; [ discriminate | ].
    rewrite calls_cons in Hcalls. cbn [entry_call] in Hcalls.
    injection Hcalls as -> <-.
    cbn [map lift_entry ecalls eentry_call ecollect asked_node closing_call epicked wait].
    fold (ecalls (map lift_entry t1)).
    rewrite (ecollect_lifted asked_node sync_mark t1), (ecollect_lifted closing_call sync_mark t1),
      (epicked_lifted wait sync_mark t1); try assumption; try (repeat split; fail).
    - intros c y Hc. destruct c; try discriminate; reflexivity.
    - intros c Hc. destruct c; try discriminate; reflexivity.
    - intros c Hc. destruct c; try discriminate; reflexivity. }
  destruct Hfirst as (F1 & F2 & F3). rewrite F1, F2, F3. repeat split.
Qed.

(** X16: [syncNodes] returns the error of the connection when it gets none,
    and the wrapped error of the listing when the farm's nodes cannot be
    listed; in both cases no node is touched.  Otherwise it asks the ledger
    for the record of every listed node, once each and in the order listed,
    whatever the reconciliation of the nodes before came to, and returns
    nil.  It does not close the connection it opened. *)
Theorem syncNodes_reconciles_every_node {W : Type} (h : eworld W) (w : W)
  (p : PowerServer) :
  let o := erun h (syncNodes p) w in
  match fst (h (Base Substrate) w) with
  | Err e => evalue o = Some e /\ ecalls (etrace o) = [Base Substrate]
  | Ok _ =>
      match fst (h (GetNodesByFarmID (farm p)) (snd (h (Base Substrate) w))) with
      | Err e =>
          evalue o = Some (Wrap e "failed to list farm nodes")
          /\ ecalls (etrace o) = [Base Substrate; GetNodesByFarmID (farm p)]
      | Ok ids =>
          evalue o = None
          /\ ecollect asked_node (ecalls (etrace o)) = ids
          /\ ecollect closing_call (ecalls (etrace o)) = []
      end
  end.
Proof.
  cbv zeta. unfold syncNodes. rewrite erun_perform.
  destruct (fst (h (Base Substrate) w)) as [[] | e]; [ | split; reflexivity ].
  rewrite erun_perform.
  destruct (fst (h (GetNodesByFarmID (farm p)) _)) as [ids | e]; [ | split; reflexivity ].
  rewrite erun_bind. cbn [erun evalue etrace]. rewrite app_nil_r.
  destruct (syncNodes_ids_asks_each h p ids
              (snd (h (GetNodesByFarmID (farm p)) (snd (h (Base Substrate) w)))))
    as (H1 & H2 & _).
  cbv zeta in H1, H2.
  change (ecalls (?a :: ?b :: ?t)) with (eentry_call a :: eentry_call b :: ecalls t).
  cbn [eentry_call ecollect asked_node closing_call].
  repeat split; assumption.
Qed.

Lemma syncNodes_never_waits {W : Type} (h : eworld W) (w : W) (p : PowerServer) :
  epicked wait (etrace (erun h (syncNodes p) w)) = [].
Proof.
  unfold syncNodes. rewrite erun_perform.
  destruct (fst (h (Base Substrate) w)) as [[] | e]; [ | reflexivity ].
  rewrite erun_perform.
  destruct (fst (h (GetNodesByFarmID (farm p)) _)) as [ids | e]; [ | reflexivity ].
  rewrite erun_bind. cbn [erun evalue etrace epicked wait]. rewrite app_nil_r.
  apply syncNodes_ids_asks_each.
Qed.

(** One round of [synchronize]. *)
Lemma synchronize_unfolds {W : Type} (h : eworld W) (w : W) (p : PowerServer)
  (n : nat) :
  let s := erun h (syncNodes p) w in
  let failed := match evalue s with Some _ => true | None => false end in
  let w1 := if failed
            then snd (h (Base (Log LogError
                                 "failed to synchronize neighbors power target"))
                        (efinal s))
            else efinal s in
  let d := if failed then 60 else 3600 in
  let woke := h (Base (Select d)) w1 in
  let again := erun h (synchronize p n) (snd woke) in
  let o := erun h (synchronize p (S n)) w in
  epicked wait (etrace o) =
    (d, fst woke) :: match fst woke with
                     | CtxDone => []
                     | TimerFired => epicked wait (etrace again)
                     end
  /\ evalue o = match fst woke with
                | CtxDone => Some tt
                | TimerFired => evalue again
                end.
Proof.
  cbv zeta. cbn [synchronize]. rewrite erun_bind. cbn [evalue etrace].
  rewrite epicked_app, syncNodes_never_waits. cbn [app].
  destruct (evalue (erun h (syncNodes p) w)) as [e |].
  - rewrite erun_bind, erun_lift. cbn [evalue etrace efinal].
    unfold log. cbn [perform run]. unfold base_world.
    destruct (h (Base (Log LogError "failed to synchronize neighbors power target")) _)
      as [[] w1]. cbn [value trace final map lift_entry app epicked wait snd].
    rewrite erun_perform. cbn [evalue etrace epicked wait].
    destruct (fst (h (Base (Select 60)) w1)); split; reflexivity.
  - rewrite erun_perform. cbn [evalue etrace epicked wait].
    destruct (fst (h (Base (Select 3600)) _)); split; reflexivity.
Qed.

(** X17: a round of [synchronize] waits one minute after a sync that
    failed and one hour after a sync that succeeded, and never in between;
    when the context is cancelled during the wait it returns, otherwise the
    next round begins. *)
Theorem synchronize_waits_by_outcome {W : Type} (h : eworld W) (w : W)
  (p : PowerServer) (n : nat) :
  let s := erun h (syncNodes p) w in
  let failed := match evalue s with Some _ => true | None => false end in
  let w1 := if failed
            then snd (h (Base (Log LogError
                                 "failed to synchronize neighbors power target"))
                        (efinal s))
            else efinal s in
  let d := if failed then 60 else 3600 in
  let woke := h (Base (Select d)) w1 in
  let again := erun h (synchronize p n) (snd woke) in
  let o := erun h (synchronize p (S n)) w in
  epicked wait (etrace o) =
    (d, fst woke) :: match fst woke with
                     | CtxDone => []
                     | TimerFired => epicked wait (etrace again)
                     end
  /\ evalue o = match fst woke with
                | CtxDone => Some tt
                | TimerFired => evalue again
                end.
Proof. exact (synchronize_unfolds h w p n). Qed.

(** X18: over any number of rounds, [synchronize] returns only on
    cancellation: when it has returned, the last wait was ended by the
    cancelled context and every wait before it by the timer; as long as it
    has not, every round so far ended by the timer.  Every wait is of one
    minute or one hour. *)
Theorem synchronize_returns_only_on_cancel {W : Type} (h : eworld W)
  (p : PowerServer) (fuel : nat) :
  forall w,
    let o := erun h (synchronize p fuel) w in
    let ends := map snd (epicked wait (etrace o)) in
    Forall (fun d => d = 60 \/ d = 3600) (map fst (epicked wait (etrace o)))
    /\ match evalue o with
       | Some _ =>
           exists before, ends = (before ++ [CtxDone])%list
                          /\ Forall (eq TimerFired) before
       | None => Forall (eq TimerFired) ends /\ List.length ends = fuel
       end.
Proof.
  induction fuel as [| n IH]; intro w; cbv zeta.
  - cbn. repeat constructor.
  - destruct (synchronize_unfolds h w p n) as [Hw Hv]. cbv zeta in Hw, Hv.
    rewrite Hw, Hv. clear Hw Hv.
    set (s := erun h (syncNodes p) w).
    set (failed := match evalue s with Some _ => true | None => false end).
    set (d := if failed then 60 else 3600).
    assert (Hd : d = 60 \/ d = 3600) by (subst d; destruct failed; auto).
    match goal with
    | |- context [h (Base (Select d)) ?w1] => set (woke := h (Base (Select d)) w1)
    end.
    destruct (fst woke).
    + cbn [map fst snd]. split; [ constructor; [ exact Hd | constructor ] | ].
      exists []. split; [ reflexivity | constructor ].
    + destruct (IH (snd woke)) as [IHd IHv]. cbv zeta in IHd, IHv.
      cbn [map fst snd]. split; [ constructor; assumption | ].
      destruct (evalue (erun h (synchronize p n) (snd woke))).
      * destruct IHv as (before & -> & Hall).
        exists (TimerFired :: before). split; [ reflexivity | now constructor ].
      * destruct IHv as [Hall Hlen]. split; [ now constructor | ].
        cbn [List.length]. f_equal. exact Hlen.
Qed.

(** ** Beyond the claims: the provision engine *)

Lemma reply_answers_once {V : Type} (to id : string) (result : option V) (e : err) :
  Engine.answers (Engine.reply to id result e) =
  [(id, match e with Some _ => false | None => true end)].
Proof. now destruct e. Qed.

Lemma answers_app {V : Type} (a b : list (Engine.line V)) :
  Engine.answers (a ++ b) = (Engine.answers a ++ Engine.answers b)%list.
Proof.
  induction a as [| l a IH]; [ reflexivity | ].
  cbn [app Engine.answers]. destruct (Engine.answered l); cbn [app]; now rewrite IH.
Qed.

(** X19: [Run] answers every reservation of the source exactly once, in the
    order of arrival, whatever the provisioners before returned and whether
    or not the type is known; a reservation of an unknown type is answered
    as failed. *)
Theorem Run_answers_every_reservation {S V : Type}
  (types : string -> option (Engine.provisioner S V))
  (source : list Engine.Reservation) :
  forall s,
    map fst (Engine.answers (fst (Engine.Run types source s))) = map Engine.ID source
    /\ forall r, In r source -> Engine.known types r = false ->
                 In (Engine.ID r, false) (Engine.answers (fst (Engine.Run types source s))).
Proof.
  induction source as [| r rest IH]; intro s; [ split; [ reflexivity | intros r [] ] | ].
  cbn [Engine.Run].
  destruct (types (Engine.Kind r)) as [fn |] eqn:Hfn.
  - destruct (fn r s) as [[result e] s1].
    destruct (IH s1) as [IHids IHunknown].
    destruct (Engine.Run types rest s1) as [lines s2]. cbn [fst] in *.
    cbn [Engine.answers Engine.answered].
    rewrite answers_app, reply_answers_once. cbn [app map fst].
    split; [ now rewrite IHids | ].
    intros r' [<- | Hin] Hunknown.
    + unfold Engine.known in Hunknown. now rewrite Hfn in Hunknown.
    + right. now apply IHunknown.
  - destruct (IH s) as [IHids IHunknown].
    destruct (Engine.Run types rest s) as [lines s1]. cbn [fst] in *.
    cbn [Engine.answers Engine.answered].
    rewrite answers_app, reply_answers_once. cbn [app map fst].
    split; [ now rewrite IHids | ].
    intros r' [<- | Hin] Hunknown; [ now left | right; now apply IHunknown ].
Qed.

(** X20: reservations of unknown type change nothing: the node is left as
    the provisioners of the reservations of known type leave it, run in the
    order of arrival. *)
Theorem Run_applies_known_types_only {S V : Type}
  (types : string -> option (Engine.provisioner S V))
  (source : list Engine.Reservation) :
  forall s,
    snd (Engine.Run types source s) =
    snd (Engine.Run types (filter (Engine.known types) source) s).
Proof.
  induction source as [| r rest IH]; intro s; [ reflexivity | ].
  cbn [Engine.Run filter]. unfold Engine.known at 1.
  destruct (types (Engine.Kind r)) as [fn |] eqn:Hfn.
  - cbn [Engine.Run]. rewrite Hfn.
    destruct (fn r s) as [[result e] s1].
    specialize (IH s1).
    destruct (Engine.Run types rest s1) as [lines s2].
    destruct (Engine.Run types (filter (Engine.known types) rest) s1) as [lines' s2'].
    exact IH.
  - specialize (IH s).
    destruct (Engine.Run types rest s) as [lines s1].
    exact IH.
Qed.

(** ** Beyond the claims: results of provisioning *)

(** X21: no error can be put through [NewStateResult]: for a non-nil error
    it panics, and the one state result it does return, that of the nil
    error, panics when its [Result] is asked for. *)
Theorem NewStateResult_never_yields_a_result (e : option Provision.error) (now : Z) :
  match Provision.NewStateResult e with
  | Provision.Panics _ => e <> None
  | Provision.Returns r =>
      e = None /\ exists why, Provision.stateResult_Result r now = Provision.Panics why
  end.
Proof.
  destruct e as [failure |]; cbn.
  - discriminate.
  - split; [ reflexivity | eexists; reflexivity ].
Qed.

(** [As_response] is the walk of [errors.As] along [Unwrap] that stops at
    the first error with a state. *)
Lemma As_response_follows_Unwrap (e : Provision.error) :
  Provision.As_response e =
  match Provision.state e with
  | Some s => Some s
  | None =>
      match Provision.Unwrap e with
      | Some cause => Provision.As_response cause
      | None => None
      end
  end.
Proof. now destruct e. Qed.

Lemma As_response_wraps (msgs : list string) (e : Provision.error) :
  Provision.As_response (Provision.wraps msgs e) = Provision.As_response e.
Proof.
  induction msgs as [| msg rest IH]; [ reflexivity | exact IH ].
Qed.

(** X22: the state of the result of a state result is the state of the
    outermost response on the error's chain of causes, however many
    messages are wrapped around it, and the error state when the error
    under the messages is a plain one; the result carries the clock reading
    and no data. *)
Theorem stateResult_state_survives_wrapping (msgs : list string)
  (e : Provision.error) (now : Z) :
  exists r,
    Provision.stateResult_Result
      (Provision.mkStateResult (Some (Provision.wraps msgs e))) now
    = Provision.Returns r
    /\ Provision.Created r = now
    /\ Provision.Data r = None
    /\ Provision.State r =
       match e with
       | Provision.response s _ => Some s
       | Provision.Plain _ => Some Provision.StateError
       | Provision.Wrapped cause _ =>
           match Provision.As_response cause with
           | Some s => Some s
           | None => Some Provision.StateError
           end
       end.
Proof.
  eexists. split; [ reflexivity | ]. cbn [Provision.Created Provision.Data Provision.State].
  rewrite As_response_wraps. repeat split.
  destruct e as [msg | cause msg | s inner]; cbn [Provision.As_response]; try reflexivity.
  now destruct (Provision.As_response cause).
Qed.

(** ** The extras with a precondition, at an instance *)

Lemma powerDown_off_link_sends_nothing_witness :
  let routed := with_routes [10; 0; 0; 5]
                  (Ok [mkRoute (Some [10; 0; 0; 1]) 2; mkRoute None 3]) calm in
  asked (calls (trace (run routed (powerDown server two_addresses) tt))) = []
  /\ posts (calls (trace (run routed (powerDown server two_addresses) tt))) = [].
Proof.
  apply (powerDown_off_link_sends_nothing
           (with_routes [10; 0; 0; 5]
              (Ok [mkRoute (Some [10; 0; 0; 1]) 2; mkRoute None 3]) calm)
           tt server two_addresses).
  intros a w' rs r Hrs Hin Hgw. cbn in Hrs. injection Hrs as <-.
  destruct Hin as [<- | [<- | []]]; cbn in *; [ discriminate Hgw | discriminate ].
Defined.

Lemma powerDown_on_link_asks_every_address_witness :
  let lan := with_routes [10; 0; 0; 5] (Ok [mkRoute None 2]) (unsigned calm) in
  asked (calls (trace (run lan (powerDown server two_addresses) tt))) =
  [mkRequest 11 9 "down"; mkRequest 11 9 "down"].
Proof.
  apply (powerDown_on_link_asks_every_address
           (with_routes [10; 0; 0; 5] (Ok [mkRoute None 2]) (unsigned calm))
           tt server two_addresses).
  - intros s w'. cbn. discriminate.
  - intros a w'. exists [mkRoute None 2], (mkRoute None 2). cbn. repeat split. now left.
Defined.

Lemma syncSelf_target_down_witness :
  let o := run (with_node told_down calm) (syncSelf server) tt in
  ledger_writes (calls (trace o)) = []
  /\ shutdown_calls (calls (trace o)) = [SendNow; InitShutdown]
  /\ value o = None.
Proof.
  cbv zeta.
  destruct (syncSelf_target_down (with_node told_down calm) tt server told_down
              eq_refl eq_refl) as [Hwrites Hdown].
  cbn [told_down Power State state_IsDown] in Hdown. destruct Hdown as [Hcalls Hvalue].
  split; [ exact Hwrites | ]. rewrite Hcalls, Hvalue. split; reflexivity.
Defined.

Lemma event_about_neighbour_witness :
  let h := local_world two_addresses in
  let post ip :=
    [ParseIP ip; RouteGet [10; 0; 0; 5];
     JsonEncode (mkRequest 11 9 "down"); BuildUrl ip 8039 "power";
     NewRequest "POST" (String.append "http://" (String.append ip "/power")) "{}";
     SignedRequest 11
       (mkHttpRequest "POST" (String.append "http://" (String.append ip "/power")) "{}" None);
     HttpDo
       (mkHttpRequest "POST" (String.append "http://" (String.append ip "/power")) "{}"
          (Some 11));
     BodyClose] in
  calls (trace (run h (event server (mkEvent 7 9 (mkTarget true true))) tt)) =
  ([Log Debug received; Substrate; GetNode 9; SubClose;
    Log Info "received an event to power down"; Log Debug "powering off node"]
   ++ post "10.0.0.5" ++ post "10.0.0.6")%list
  /\ calls (trace (run h (event server (mkEvent 7 9 (mkTarget true false))) tt)) =
     [Log Debug received; Substrate; GetNode 9; SubClose;
      Log Info "received an event to power up"; Log Info "powering on node";
      EtherWake "52:54:00:12:34:56"]
  /\ wakes (calls (trace (run h (event server (mkEvent 7 9 (mkTarget true true))) tt))) = [].
Proof.
  cbv zeta.
  pose proof (event_about_neighbour (local_world two_addresses) tt server
                (mkEvent 7 9 (mkTarget true true)) two_addresses eq_refl) as Hdown.
  pose proof (event_about_neighbour (local_world two_addresses) tt server
                (mkEvent 7 9 (mkTarget true false)) two_addresses eq_refl) as Hup.
  cbv zeta in Hdown, Hup. cbn [event_Target target_IsDown target_IsUp] in Hdown, Hup.
  assert (Hother : forall t, event_NodeID (mkEvent 7 9 t) <> node server)
    by (intro t; discriminate).
  destruct (Hdown (Hother _) eq_refl) as (Hcalls & _ & Hwakes & _).
  destruct (Hup (Hother _) eq_refl) as (Hcalls' & _).
  split; [ exact Hcalls | ]. split; [ exact Hcalls' | exact Hwakes ].
Defined.

Lemma recv_takes_up_every_event_witness :
  let stream := [mkEvent 8 1 (mkTarget true false);
                 mkEvent 7 9 (mkTarget false true);
                 mkEvent 7 4 (mkTarget true false)] in
  let h := with_stream stream (local_world two_addresses) in
  let o := run h (recv server) tt in
  value o = None
  /\ fetched (calls (trace o)) = [9; 4]
  /\ filter is_received (calls (trace o)) = [Log Debug received; Log Debug received]
  /\ probes (calls (trace o)) = ["10.0.0.5"; "10.0.0.6"]
  /\ asked (calls (trace o)) = [mkRequest 11 9 "down"; mkRequest 11 9 "down"]
  /\ wakes (calls (trace o)) = ["52:54:00:12:34:56"].
Proof.
  cbv zeta.
  pose proof (recv_takes_up_every_event
                (with_stream [mkEvent 8 1 (mkTarget true false);
                              mkEvent 7 9 (mkTarget false true);
                              mkEvent 7 4 (mkTarget true false)]
                   (local_world two_addresses)) tt server) as H.
  cbv zeta in H. cbn [with_stream fst snd] in H.
  destruct H as (Hvalue & Hreceived & Hfetched).
  split; [ exact Hvalue | ].
  split; [ apply Hfetched; intro w'; exists tt; reflexivity | ].
  split; [ exact Hreceived | ]. repeat split.
Defined.

(** ** The rest of the package, run *)

(** Construction goes through although ethtools fails on a NIC, and the
    probe of the server is bound to the index of the link "zos". *)
Example NewPowerServer_despite_ethtools :
  let o := erun (farm_world calm) (NewPowerServer 7 11) tt in
  evalue o = Ok server
  /\ ecollect tuned (ecalls (etrace o)) = ["eth0"; "eth1"]
  /\ ecalls (etrace o)
     = [BridgeGet "zos"; BridgeListNics "zos"; Ethtools "eth0";
        Base (Log LogError "failed to enable WOL for nic"); Ethtools "eth1";
        NewIdentityFromEd25519Key; LinkByName "zos"].
Proof. cbv zeta. repeat split. Qed.

(** The listing fails twice and then succeeds; the context is cancelled
    during the hour that follows. *)
Example synchronize_retries_after_a_minute :
  let o := erun late_listing (synchronize server 10) 2%nat in
  evalue o = Some tt
  /\ epicked wait (etrace o) = [(60, TimerFired); (60, TimerFired); (3600, CtxDone)].
Proof. cbv zeta. repeat split. Qed.

(** Both listed nodes are asked for, although the ledger has neither. *)
Example syncNodes_goes_on_after_a_failure :
  let o := erun (farm_world calm) (syncNodes server) tt in
  evalue o = None /\ ecollect asked_node (ecalls (etrace o)) = [3; 9].
Proof. cbv zeta. repeat split. Qed.

(** A response keeps its state under two messages; a plain error gives the
    error state. *)
Example stateResult_of_wrapped_responses :
  Provision.stateResult_Result
    (Provision.mkStateResult
       (Some (Provision.wraps ["update failed"; "vm"] (Provision.UnChanged None)))) 42
  = Provision.Returns
      (Provision.mkResult 42 (Some Provision.StateUnChanged) "update failed: vm: " None)
  /\ Provision.stateResult_Result
       (Provision.mkStateResult (Some (Provision.Wrapped Provision.Paused "vm"))) 42
     = Provision.Returns
         (Provision.mkResult 42 (Some Provision.StatePaused) "vm: paused" None)
  /\ Provision.stateResult_Result
       (Provision.mkStateResult (Some (Provision.Plain "disk full"))) 42
     = Provision.Returns
         (Provision.mkResult 42 (Some Provision.StateError) "disk full" None)
  /\ Provision.stateResult_Result (Provision.mkStateResult (Some Provision.Ok)) 42
     = Provision.Returns (Provision.mkResult 42 (Some Provision.StateOk) "" None).
Proof. repeat split. Qed.
